(** * huggingface_auth: retry policy, join/refresh exchange and token checks

    A shallow embedding of [huggingface_auth.py].  Python exceptions are
    values of [exn]; a computation that may raise returns a [result]; code
    that mutates [self] or talks to the outside world threads a state.

    Conventions.
    - A Python [str] is represented by the [string] of its UTF-8 bytes, so
      that [str.encode()] and [bytes.decode()] are the identity on the
      representation (texts are assumed well-formed Unicode).
    - The initial delay is a finite float, given by its exact value.  Its
      product with [2 ** i], a power of two, is exact where it is finite;
      the conversion of [2 ** i] to a float raises [OverflowError] from
      [i = 1024] on.  A product that overflows to an infinity is too large
      for [time.sleep], as its exact value is: [time.sleep] raises
      [OverflowError] for every length that, in nanoseconds rounded away
      from zero, lies outside [-2^63 .. 2^63 - 1], and [ValueError] for a
      negative length inside that range.  The conversion to nanoseconds is
      taken exact.
    - The warning of the retry loop formats [func.__name__], the exception
      and the delay; formatting the exception is taken to succeed.
    - Logging never changes control flow; only the warning of the retry loop
      is recorded, as an event of the loop's trace. *)

From Stdlib Require Import ZArith QArith Qround List String Ascii Bool Lia.
Import ListNotations.
Local Open Scope Z_scope.
Set Warnings "-register-all".

(** ** Exceptions and results *)

(** Failures of [requests] other than [HTTPError]. *)
Inductive request_failure : Type :=
| ConnectionError
| Timeout
| SSLError
| TooManyRedirects.

Inductive exn : Type :=
(* classes declared in the module *)
| NonRetriableError
| InvalidCredentialsError
| NotInAllowlistError
(* [requests.exceptions] *)
| HTTPError (status_code : Z)        (* carries its response's status *)
| RequestException (k : request_failure)
| JSONDecodeError
(* builtins *)
| KeyError (key : string)
| TypeError
| AttributeError
| ValueError
| OverflowError
(* builtins deriving from [BaseException] only *)
| KeyboardInterrupt
| SystemExit.

(** [isinstance(e, NonRetriableError)]: the class and its two subclasses. *)
Definition isinstance_NonRetriableError (e : exn) : bool :=
  match e with
  | NonRetriableError | InvalidCredentialsError | NotInAllowlistError => true
  | _ => false
  end.

(** [isinstance(e, Exception)]. *)
Definition isinstance_Exception (e : exn) : bool :=
  match e with
  | KeyboardInterrupt | SystemExit => false
  | _ => true
  end.

(** The failures the retry loop retries: ordinary exceptions that are not
    marked permanent. *)
Definition transient (e : exn) : bool :=
  isinstance_Exception e && negb (isinstance_NonRetriableError e).

Inductive result (A : Type) : Type :=
| Ok (a : A)
| Raise (e : exn).
Arguments Ok {A} a.
Arguments Raise {A} e.

(** ** RetryPolicy: [call_with_retries] *)

(** What an observer of the loop sees, in order. *)
Inductive event : Type :=
| Called                                        (* [func()] *)
| Warned (name : string) (e : exn) (delay : Q)  (* [logger.warning(...)] *)
| Slept (delay : Q).                            (* [time.sleep(delay)] returned *)

Definition n_calls (tr : list event) : nat :=
  List.length (filter (fun ev => match ev with Called => true | _ => false end) tr).

Fixpoint sleeps (tr : list event) : list Q :=
  match tr with
  | [] => []
  | Slept d :: tr' => d :: sleeps tr'
  | _ :: tr' => sleeps tr'
  end.

(** [range(n)]: empty when [n <= 0]. *)
Definition range (n : Z) : list Z := map Z.of_nat (seq 0 (Z.to_nat n)).

Record outcome (State T : Type) : Type := mkOutcome {
  returned : result T;
  final : State;
  trace : list event
}.
Arguments mkOutcome {State T} _ _ _.
Arguments returned {State T} _.
Arguments final {State T} _.
Arguments trace {State T} _.

Definition after {State T} (evs : list event) (o : outcome State T) : outcome State T :=
  mkOutcome (returned o) (final o) (evs ++ trace o).

Section RetryPolicy.
Context {State T : Type}.
(** The operation: a zero-argument callable acting on the state [State]. *)
Variable func : State -> result T * State.
(** [func.__name__]; [None] when the callable has no such attribute. *)
Variable func_name : option string.
(** What a sleep that [time.sleep] accepts does to the state; such a sleep
    returns. *)
Variable time_sleep : Q -> State -> State.

Variable n_retries : Z.
Variable initial_delay : Q.

(** [initial_delay * (2 ** i)], where it is computed. *)
Definition backoff (i : Z) : Q := initial_delay * inject_Z (2 ^ i).

(** [float * (2 ** i)] converts the integer to a float first, which
    overflows from [2 ** 1024] on. *)
Definition power_overflows (i : Z) : bool := 1024 <=? i.

(** The length of a sleep in nanoseconds, as [time.sleep] converts it:
    rounded away from zero. *)
Definition nanoseconds (delay : Q) : Z :=
  let ns := (delay * inject_Z (10 ^ 9))%Q in
  if Qle_bool 0 ns then Qceiling ns else Qfloor ns.

(** What [time.sleep(delay)] raises instead of sleeping: [OverflowError]
    for a length that does not fit in 64 bits of nanoseconds, whatever its
    sign, and then [ValueError] for a negative one. *)
Definition sleep_refusal (delay : Q) : option exn :=
  let ns := nanoseconds delay in
  if (- 2 ^ 63 <=? ns) && (ns <? 2 ^ 63) then
    if ns <? 0 then Some ValueError else None
  else Some OverflowError.

(** The retry at index [i] goes through: the delay is computed and
    [time.sleep] accepts it. *)
Definition delay_accepted (i : Z) : bool :=
  negb (power_overflows i)
  && match sleep_refusal (backoff i) with
     | None => true
     | Some _ => false
     end.

(** The body of [for i in range(n_retries)], over the indices still to
    come.  Falling off the loop returns [None]. *)
Fixpoint retry_loop (indices : list Z) (s : State) : outcome State (option T) :=
  match indices with
  | [] => mkOutcome (Ok None) s []
  | i :: rest =>
      let (r, s1) := func s in
      match r with
      | Ok v => mkOutcome (Ok (Some v)) s1 [Called]
      | Raise e =>
          if isinstance_NonRetriableError e then
            mkOutcome (Raise e) s1 [Called]           (* [raise] *)
          else if isinstance_Exception e then
            if i =? n_retries - 1 then
              mkOutcome (Raise e) s1 [Called]         (* [raise] *)
            else if power_overflows i then
              (* [delay = initial_delay * (2 ** i)] *)
              mkOutcome (Raise OverflowError) s1 [Called]
            else
              let delay := backoff i in
              match func_name with
              | None =>
                  (* the message reads [func.__name__] *)
                  mkOutcome (Raise AttributeError) s1 [Called]
              | Some name =>
                  match sleep_refusal delay with
                  | Some refusal =>
                      mkOutcome (Raise refusal) s1 [Called; Warned name e delay]
                  | None =>
                      after [Called; Warned name e delay; Slept delay]
                            (retry_loop rest (time_sleep delay s1))
                  end
              end
          else
            mkOutcome (Raise e) s1 [Called]           (* not caught *)
      end
  end.

Definition call_with_retries (s : State) : outcome State (option T) :=
  retry_loop (range n_retries) s.

(** The state in which the loop makes its call of index [i + k], when it
    is at index [i] in state [s] and the [k] calls before fail and are
    retried. *)
Fixpoint advance (i : nat) (k : nat) (s : State) : State :=
  match k with
  | O => s
  | S k' =>
      advance (S i) k' (time_sleep (backoff (Z.of_nat i)) (snd (func s)))
  end.

(** The state before the call number [j] (from zero) of a run started in
    [s0] whose earlier calls all failed and were retried. *)
Definition state_before (j : nat) (s0 : State) : State := advance 0 j s0.

(** The delays [initial_delay * 2^i] for [i = first .. first + k - 1]. *)
Definition backoffs (first k : nat) : list Q :=
  map (fun i => backoff (Z.of_nat i)) (seq first k).

(** The call made in state [s] raises a failure the loop retries. *)
Definition fails_transiently (s : State) : Prop :=
  exists e, fst (func s) = Raise e /\ transient e = true.

(** The events of [k] failed and retried calls of an operation called
    [name], the first at index [i] in state [s]. *)
Fixpoint retried_trace (name : string) (i : nat) (k : nat) (s : State) : list event :=
  match k with
  | O => []
  | S k' =>
      match fst (func s) with
      | Raise e =>
          [Called; Warned name e (backoff (Z.of_nat i)); Slept (backoff (Z.of_nat i))]
      | Ok _ => []
      end ++ retried_trace name (S i) k' (time_sleep (backoff (Z.of_nat i)) (snd (func s)))
  end.

End RetryPolicy.

(** ** TokenModel *)

Local Open Scope string_scope.

Definition str := string.
Definition bytes := string.

(** [hivemind.proto.auth_pb2.AccessToken] *)
Record AccessToken : Type := mkAccessToken {
  username : str;
  public_key : bytes;
  expiration_time : str;
  signature : bytes
}.

(** [repr] of a [bytes] object, which is what an f-string inserts for it. *)
Definition hexdigit (n : N) : ascii :=
  nth (N.to_nat n) (list_ascii_of_string "0123456789abcdef") "0"%char.

Definition contains (c : ascii) (b : bytes) : bool :=
  existsb (Ascii.eqb c) (list_ascii_of_string b).

Definition repr_quote (b : bytes) : ascii :=
  if contains "'"%char b && negb (contains "034"%char b) then "034"%char else "'"%char.

Definition repr_byte (quote c : ascii) : string :=
  let n := N_of_ascii c in
  if Ascii.eqb c quote || Ascii.eqb c "\"%char then String "\" (String c EmptyString)
  else if Ascii.eqb c "009"%char then "\t"%string
  else if Ascii.eqb c "010"%char then "\n"%string
  else if Ascii.eqb c "013"%char then "\r"%string
  else if (n <? 32)%N || (127 <=? n)%N then
    String "\" (String "x" (String (hexdigit (N.shiftr (N.land n 240) 4))
                              (String (hexdigit (N.land n 15)) EmptyString)))
  else String c EmptyString.

Definition bytes_repr (b : bytes) : string :=
  let quote := repr_quote b in
  String "b" (String quote
    (String.concat "" (map (repr_byte quote) (list_ascii_of_string b))
       ++ String quote EmptyString)%string).

(** [f'{username} {public_key} {expiration_time}'.encode()] *)
Definition _token_to_bytes (access_token : AccessToken) : bytes :=
  (username access_token ++ " " ++ bytes_repr (public_key access_token)
     ++ " " ++ expiration_time access_token)%string.

(** ** Timestamps *)

(** A [datetime]: its calendar fields as microseconds since 0001-01-01
    00:00:00, and the UTC offset (in microseconds) of its [tzinfo], if it
    has one. *)
Record datetime : Type := mkDatetime {
  ticks : Z;
  tzinfo : option Z
}.

(** [timedelta(minutes=1)], in microseconds. *)
Definition timedelta_minutes (m : Z) : Z := m * 60 * 1000000.

Definition datetime_add (d : datetime) (delta : Z) : datetime :=
  mkDatetime (ticks d + delta) (tzinfo d).

(** [a < b]: naive with naive by fields, aware with aware by UTC instant;
    mixing the two raises. *)
Definition datetime_lt (a b : datetime) : result bool :=
  match tzinfo a, tzinfo b with
  | None, None => Ok (ticks a <? ticks b)%Z
  | Some oa, Some ob => Ok (ticks a - oa <? ticks b - ob)%Z
  | _, _ => Raise TypeError
  end.

(** [datetime.utcnow()] when the clock reads [now]: a naive timestamp. *)
Definition utcnow (now : Z) : datetime := mkDatetime now None.

(** ** Values decoded from JSON, and the HTTP exchange *)

(** The Python objects [response.json()] can return.  A float is kept as
    its binary64 bit pattern; a dict as its items, keys distinct. *)
Inductive pyobj : Type :=
| PyNone
| PyBool (b : bool)
| PyInt (n : Z)
| PyFloat (bits : Z)
| PyStr (s : str)
| PyList (items : list pyobj)
| PyDict (items : list (str * pyobj)).

Fixpoint dict_get (items : list (str * pyobj)) (key : str) : option pyobj :=
  match items with
  | [] => None
  | (k, v) :: items' => if String.eqb k key then Some v else dict_get items' key
  end.

(** [obj[key]] for a [str] key. *)
Definition subscript (obj : pyobj) (key : str) : result pyobj :=
  match obj with
  | PyDict items =>
      match dict_get items key with
      | Some v => Ok v
      | None => Raise (KeyError key)
      end
  | _ => Raise TypeError
  end.

(** [obj.encode()]: only a [str] has the method. *)
Definition encode (obj : pyobj) : result bytes :=
  match obj with
  | PyStr s => Ok s
  | _ => Raise AttributeError
  end.

(** Assignment to a protobuf [string] field. *)
Definition as_string_field (obj : pyobj) : result str :=
  match obj with
  | PyStr s => Ok s
  | _ => Raise TypeError
  end.

(** A [requests.Response]: its status and what [response.json()] gives. *)
Record Response : Type := mkResponse {
  status_code : Z;
  json : result pyobj
}.

(** [response.raise_for_status()] *)
Definition raise_for_status (response : Response) : result unit :=
  if (400 <=? status_code response)%Z && (status_code response <? 600)%Z
  then Raise (HTTPError (status_code response))
  else Ok tt.

(** Whether the outcome of a request is an answer that passes
    [raise_for_status] and whose body [json()] decodes. *)
Definition answer_decoded (r : result Response) : bool :=
  match r with
  | Raise _ => false
  | Ok response =>
      match raise_for_status response, json response with
      | Ok _, Ok _ => true
      | _, _ => false
      end
  end.

(** The arguments of [requests.put]. *)
Record Request : Type := mkRequest {
  url : str;
  headers : list (str * str);
  params : list (str * str);
  json_body : pyobj;
  verify_certificate : bool
}.

(** ** A state-and-exception monad for the methods of the authorizer *)

Definition M (State A : Type) : Type := State -> result A * State.

Definition bind {State A B} (m : M State A) (k : A -> M State B) : M State B :=
  fun st =>
    match m st with
    | (Ok a, st') => k a st'
    | (Raise e, st') => (Raise e, st')
    end.

Definition lift {State A} (r : result A) : M State A := fun st => (r, st).

Declare Scope monad_scope.
Delimit Scope monad_scope with monad.
Notation "x <- m ;; k" := (bind m (fun x => k))
  (at level 61, m at next level, right associativity) : monad_scope.
Notation "m ;;; k" := (bind m (fun _ => k))
  (at level 61, right associativity) : monad_scope.

(** ** The authorizer *)

Section Authorizer.
(** Capabilities supplied by the surroundings. *)
Variable RSAPublicKey : Type.
Variable from_bytes : bytes -> result RSAPublicKey.   (* [RSAPublicKey.from_bytes] *)
Variable to_bytes : RSAPublicKey -> bytes.            (* [key.to_bytes()] *)
Variable verify : RSAPublicKey -> bytes -> bytes -> bool.  (* [key.verify(data, signature)] *)
(** [datetime.fromisoformat] on a [str]: [None] stands for [ValueError]. *)
Variable fromisoformat : str -> option datetime.
Variable datetime_str : datetime -> str.              (* [str(d)] *)
(** The outside world, and what a PUT request and a sleep do to it. *)
Variable World : Type.
Variable requests_put : Request -> World -> result Response * World.
Variable sleep_world : Q -> World -> World.

Record HuggingFaceAuthorizer : Type := mkAuthorizer {
  organization_name : str;
  model_name : str;
  hf_user_access_token : str;
  local_public_key : RSAPublicKey;            (* from [TokenAuthorizerBase] *)
  _local_access_token : option AccessToken;   (* from [TokenAuthorizerBase] *)
  _authority_public_key : option RSAPublicKey;
  coordinator_ip : pyobj;
  coordinator_port : pyobj
}.

Definition _AUTH_SERVER_URL : str := "https://collaborative-training-auth.huggingface.co".

(** [__init__], with the key pair the base class picks. *)
Definition init (local_key : RSAPublicKey) (organization model token : str)
  : HuggingFaceAuthorizer :=
  mkAuthorizer organization model token local_key None None PyNone PyNone.

Definition set_authority_public_key (k : RSAPublicKey) (a : HuggingFaceAuthorizer) :=
  mkAuthorizer (organization_name a) (model_name a) (hf_user_access_token a)
    (local_public_key a) (_local_access_token a) (Some k)
    (coordinator_ip a) (coordinator_port a).

Definition set_coordinator_ip (v : pyobj) (a : HuggingFaceAuthorizer) :=
  mkAuthorizer (organization_name a) (model_name a) (hf_user_access_token a)
    (local_public_key a) (_local_access_token a) (_authority_public_key a)
    v (coordinator_port a).

Definition set_coordinator_port (v : pyobj) (a : HuggingFaceAuthorizer) :=
  mkAuthorizer (organization_name a) (model_name a) (hf_user_access_token a)
    (local_public_key a) (_local_access_token a) (_authority_public_key a)
    (coordinator_ip a) v.

Definition set_local_access_token (t : AccessToken) (a : HuggingFaceAuthorizer) :=
  mkAuthorizer (organization_name a) (model_name a) (hf_user_access_token a)
    (local_public_key a) (Some t) (_authority_public_key a)
    (coordinator_ip a) (coordinator_port a).

(** The methods run on the authorizer and the world. *)
Definition Env : Type := (HuggingFaceAuthorizer * World)%type.

Definition get_self : M Env HuggingFaceAuthorizer := fun st => (Ok (fst st), st).

Definition update_self (f : HuggingFaceAuthorizer -> HuggingFaceAuthorizer) : M Env unit :=
  fun st => (Ok tt, (f (fst st), snd st)).

Definition put (request : Request) : M Env Response :=
  fun st => let (r, w) := requests_put request (snd st) in (r, (fst st, w)).

(** [datetime.fromisoformat(obj)] on a decoded value. *)
Definition fromisoformat_obj (obj : pyobj) : result datetime :=
  match obj with
  | PyStr s =>
      match fromisoformat s with
      | Some d => Ok d
      | None => Raise ValueError
      end
  | _ => Raise TypeError
  end.

(** The request of lines 75-90. *)
Definition join_request (self : HuggingFaceAuthorizer) : Request :=
  mkRequest
    (_AUTH_SERVER_URL ++ "/api/experiments/join")
    [("Authorization", "Bearer " ++ hf_user_access_token self)]
    [("organization_name", organization_name self);
     ("model_name", model_name self)]
    (PyDict [("experiment_join_input",
              PyDict [("peer_public_key", PyStr (to_bytes (local_public_key self)))])])
    false.

(** Lines 99-104: the token built from [response['hivemind_access']], a
    local object until it is stored. *)
Definition read_access_token (response : pyobj) : result AccessToken :=
  match subscript response "hivemind_access" with
  | Raise e => Raise e
  | Ok token_dict =>
  match subscript token_dict "username" with
  | Raise e => Raise e
  | Ok name_obj =>
  match as_string_field name_obj with
  | Raise e => Raise e
  | Ok name =>
  match subscript token_dict "peer_public_key" with
  | Raise e => Raise e
  | Ok peer_obj =>
  match encode peer_obj with
  | Raise e => Raise e
  | Ok peer =>
  match subscript token_dict "expiration_time" with
  | Raise e => Raise e
  | Ok expiry_obj =>
  match fromisoformat_obj expiry_obj with
  | Raise e => Raise e
  | Ok expiry =>
  match subscript token_dict "signature" with
  | Raise e => Raise e
  | Ok sig_obj =>
  match encode sig_obj with
  | Raise e => Raise e
  | Ok sig => Ok (mkAccessToken name peer (datetime_str expiry) sig)
  end end end end end end end end end.

(** The [try] block of [_join_experiment]. *)
Definition join_body : M Env unit :=
  (self <- get_self ;;
   response <- put (join_request self) ;;
   lift (raise_for_status response) ;;;
   response <- lift (json response) ;;

   key_text <- lift (subscript response "auth_server_public_key") ;;
   key_bytes <- lift (encode key_text) ;;
   key <- lift (from_bytes key_bytes) ;;
   update_self (set_authority_public_key key) ;;;
   ip <- lift (subscript response "coordinator_ip") ;;
   update_self (set_coordinator_ip ip) ;;;
   port <- lift (subscript response "coordinator_port") ;;
   update_self (set_coordinator_port port) ;;;

   access_token <- lift (read_access_token response) ;;
   update_self (set_local_access_token access_token))%monad.

(** [_join_experiment]: the block above under
    [except requests.exceptions.HTTPError]. *)
Definition _join_experiment : M Env unit :=
  fun st =>
    match join_body st with
    | (Raise (HTTPError status), st') =>
        if (status =? 401)%Z then (Raise NotInAllowlistError, st')
        else (Raise (HTTPError status), st')
    | other => other
    end.

Definition time_sleep (delay : Q) (st : Env) : Env :=
  (fst st, sleep_world delay (snd st)).

(** [join_experiment]: [call_with_retries(self._join_experiment)], with the
    defaults [n_retries=10] and [initial_delay=1.0]; the value is dropped. *)
Definition join_experiment (st : Env) : outcome Env unit :=
  let o := call_with_retries _join_experiment (Some "_join_experiment") time_sleep 10 1 st in
  mkOutcome (match returned o with Ok _ => Ok tt | Raise e => Raise e end)
            (final o) (trace o).

(** [get_token] *)
Definition get_token (st : Env) : outcome Env (option AccessToken) :=
  let o := join_experiment st in
  match returned o with
  | Ok _ => mkOutcome (Ok (_local_access_token (fst (final o)))) (final o) (trace o)
  | Raise e => mkOutcome (Raise e) (final o) (trace o)
  end.

(** [is_token_valid], the clock reading [now]. *)
Definition is_token_valid (self : HuggingFaceAuthorizer) (now : Z)
    (access_token : AccessToken) : result bool :=
  let data := _token_to_bytes access_token in
  match _authority_public_key self with
  | None => Raise AttributeError              (* [None] has no [verify] *)
  | Some key =>
      if negb (verify key data (signature access_token)) then Ok false
      else
        match fromisoformat (expiration_time access_token) with
        | None => Ok false                    (* [except ValueError] *)
        | Some expiration =>
            match tzinfo expiration with
            | Some _ => Ok false
            | None =>
                match datetime_lt expiration (utcnow now) with
                | Raise e => Raise e
                | Ok true => Ok false
                | Ok false => Ok true
                end
            end
        end
  end.

Definition _MAX_LATENCY : Z := timedelta_minutes 1.

(** [does_token_need_refreshing], the clock reading [now]. *)
Definition does_token_need_refreshing (self : HuggingFaceAuthorizer) (now : Z)
    (access_token : AccessToken) : result bool :=
  match fromisoformat (expiration_time access_token) with
  | None => Raise ValueError
  | Some expiration => datetime_lt expiration (datetime_add (utcnow now) _MAX_LATENCY)
  end.

End Authorizer.

(** ** The statements of the specification that the code does not meet,
    in the specification's words *)

(** "An operation whose first call raises a permanent failure is executed
    exactly once, with zero sleeps, and the failure is re-raised, whatever
    [maxAttempts] is." *)
Definition permanent_failure_spec {State T} (func : State -> result T * State)
    (name : option string) (time_sleep : Q -> State -> State)
    (maxAttempts : Z) (initialDelay : Q) (s : State) : Prop :=
  forall e, fst (func s) = Raise e -> isinstance_NonRetriableError e = true ->
    let o := call_with_retries func name time_sleep maxAttempts initialDelay s in
    returned o = Raise e /\ n_calls (trace o) = 1%nat /\ sleeps (trace o) = [].

(** "An operation that fails transiently on its first [N - 1] calls and
    succeeds on the [N]-th, run with [maxAttempts >= N], returns the
    success after exactly [N] calls and [N - 1] sleeps, of
    [initialDelay * 2^i] for [i = 0 .. N - 2]." *)
Definition backoff_spec {State T} (func : State -> result T * State)
    (name : option string) (time_sleep : Q -> State -> State)
    (N : nat) (maxAttempts : Z) (initialDelay : Q) (s : State) : Prop :=
  (1 <= N)%nat ->
  Z.of_nat N <= maxAttempts ->
  (forall j, (j < N - 1)%nat ->
     fails_transiently func (state_before func time_sleep initialDelay j s)) ->
  forall v, fst (func (state_before func time_sleep initialDelay (N - 1) s)) = Ok v ->
  let o := call_with_retries func name time_sleep maxAttempts initialDelay s in
  returned o = Ok (Some v) /\ n_calls (trace o) = N /\
  sleeps (trace o) = backoffs initialDelay 0 (N - 1).

(** "With [maxAttempts = N], an operation that fails transiently on every
    call is executed exactly [N] times and the failure of the last attempt
    is propagated." *)
Definition exhaustion_spec {State T} (func : State -> result T * State)
    (name : option string) (time_sleep : Q -> State -> State)
    (N : nat) (initialDelay : Q) (s : State) : Prop :=
  (forall j, fails_transiently func (state_before func time_sleep initialDelay j s)) ->
  let o := call_with_retries func name time_sleep (Z.of_nat N) initialDelay s in
  n_calls (trace o) = N /\ exists e, returned o = Raise e.

Section SpecWords.
Variable RSAPublicKey : Type.
Variable from_bytes : bytes -> result RSAPublicKey.
Variable to_bytes : RSAPublicKey -> bytes.
Variable fromisoformat : str -> option datetime.
Variable datetime_str : datetime -> str.
Variable World : Type.
Variable requests_put : Request -> World -> result Response * World.
Variable sleep_world : Q -> World -> World.
Variable verify : RSAPublicKey -> bytes -> bytes -> bool.

(** "[getToken] invokes the join operation if and only if no token is held
    or the held token needs refreshing." *)
Definition lazy_refresh_spec (now : Z) (st : Env RSAPublicKey World) : Prop :=
  let o := get_token RSAPublicKey from_bytes to_bytes fromisoformat datetime_str
             World requests_put sleep_world st in
  (n_calls (trace o) <> 0)%nat <->
  (_local_access_token _ (fst st) = None \/
   exists t, _local_access_token _ (fst st) = Some t /\
             does_token_need_refreshing RSAPublicKey fromisoformat (fst st) now t = Ok true).

(** "A join attempt either succeeds, or raises and leaves the authority key,
    the coordinator address and the held token unchanged." *)
Definition atomic_join_spec (st : Env RSAPublicKey World) : Prop :=
  let r := _join_experiment RSAPublicKey from_bytes to_bytes fromisoformat
             datetime_str World requests_put st in
  match fst r with
  | Ok _ => True
  | Raise _ =>
      _authority_public_key _ (fst (snd r)) = _authority_public_key _ (fst st) /\
      coordinator_ip _ (fst (snd r)) = coordinator_ip _ (fst st) /\
      coordinator_port _ (fst (snd r)) = coordinator_port _ (fst st) /\
      _local_access_token _ (fst (snd r)) = _local_access_token _ (fst st)
  end.

(** The authorizers that have never completed a successful join: the one
    [__init__] builds, and what a join attempt that raises leaves of such an
    authorizer. *)
Inductive never_joined : HuggingFaceAuthorizer RSAPublicKey -> Prop :=
| never_joined_init (local_key : RSAPublicKey) (organization model token : str) :
    never_joined (init RSAPublicKey local_key organization model token)
| never_joined_failed (a : HuggingFaceAuthorizer RSAPublicKey) (w : World)
    (e : exn) (st' : Env RSAPublicKey World) :
    never_joined a ->
    _join_experiment RSAPublicKey from_bytes to_bytes fromisoformat datetime_str
      World requests_put (a, w) = (Raise e, st') ->
    never_joined (fst st').

(** "On an authorizer that has never completed a successful join,
    [is_token_valid] raises an exception rather than returning a
    boolean." *)
Definition unjoined_validation_spec (a : HuggingFaceAuthorizer RSAPublicKey)
    (now : Z) (t : AccessToken) : Prop :=
  never_joined a ->
  exists e, is_token_valid RSAPublicKey verify fromisoformat a now t = Raise e.

End SpecWords.

(** ** A small instance of the capabilities, to run the model on examples *)

(** Keys are their text; a signature is the key text, a colon and the data. *)
Definition demo_from_bytes (b : bytes) : result string :=
  if String.eqb b "" then Raise ValueError else Ok b.

Definition demo_to_bytes (k : string) : bytes := k.

Definition demo_verify (k : string) (data sig : bytes) : bool :=
  String.eqb sig (k ++ ":" ++ data).

(** 2030-01-01 00:00:00, day 741077 after 0001-01-01. *)
Definition demo_expiry : Z := 741077 * 86400 * 1000000.

(** A parser that knows one instant, without and with a UTC offset. *)
Definition demo_fromisoformat (s : str) : option datetime :=
  if String.eqb s "2030-01-01 00:00:00" then Some (mkDatetime demo_expiry None)
  else if String.eqb s "2030-01-01 00:00:00+00:00" then Some (mkDatetime demo_expiry (Some 0%Z))
  else None.

Definition demo_datetime_str (d : datetime) : str :=
  match tzinfo d with
  | None => "2030-01-01 00:00:00"
  | Some _ => "2030-01-01 00:00:00+00:00"
  end.

(** The world is the script of the answers still to come; a request made
    when the script is over fails to connect. *)
Definition demo_put (request : Request) (w : list (result Response))
  : result Response * list (result Response) :=
  match w with
  | [] => (Raise (RequestException ConnectionError), [])
  | r :: w' => (r, w')
  end.

Definition demo_sleep (delay : Q) (w : list (result Response)) : list (result Response) := w.

Definition demo_token : AccessToken :=
  mkAccessToken "alice" "peer-key" "2030-01-01 00:00:00"
    "authority:alice b'peer-key' 2030-01-01 00:00:00".

Definition demo_unparsable_token : AccessToken :=
  mkAccessToken "alice" "peer-key" "tomorrow" "authority:alice b'peer-key' tomorrow".

(** A well-formed answer of the authority. *)
Definition demo_granted : Response :=
  mkResponse 200 (Ok (PyDict
    [("auth_server_public_key", PyStr "authority");
     ("coordinator_ip", PyStr "10.0.0.1");
     ("coordinator_port", PyInt 31337);
     ("hivemind_access", PyDict
        [("username", PyStr "alice");
         ("peer_public_key", PyStr "peer-key");
         ("expiration_time", PyStr "2030-01-01 00:00:00");
         ("signature", PyStr "authority:alice b'peer-key' 2030-01-01 00:00:00")])])).

(** The same answer, the expiration time carrying a UTC offset. *)
Definition demo_granted_aware : Response :=
  mkResponse 200 (Ok (PyDict
    [("auth_server_public_key", PyStr "authority");
     ("coordinator_ip", PyStr "10.0.0.1");
     ("coordinator_port", PyInt 31337);
     ("hivemind_access", PyDict
        [("username", PyStr "alice");
         ("peer_public_key", PyStr "peer-key");
         ("expiration_time", PyStr "2030-01-01 00:00:00+00:00");
         ("signature", PyStr "authority:alice b'peer-key' 2030-01-01 00:00:00+00:00")])])).

(** An answer with status 200 whose body names a new authority key and
    coordinator but carries no token. *)
Definition demo_truncated : Response :=
  mkResponse 200 (Ok (PyDict
    [("auth_server_public_key", PyStr "rotated");
     ("coordinator_ip", PyStr "10.0.0.2");
     ("coordinator_port", PyInt 31338)])).

Definition demo_fresh : HuggingFaceAuthorizer string :=
  init string "local" "org" "model" "hf_token".

(** An authorizer that has joined: it holds [demo_token]. *)
Definition demo_joined : HuggingFaceAuthorizer string :=
  mkAuthorizer string "org" "model" "hf_token" "local" (Some demo_token)
    (Some "authority") (PyStr "10.0.0.1") (PyInt 31337).

(** One hour before [demo_expiry]. *)
Definition demo_now : Z := demo_expiry - 3600 * 1000000.

(** Operations on a call counter for the retry loop: one that fails to
    connect on its first two calls, one that always does, and one that is
    refused for good. *)
Definition demo_flaky (c : nat) : result nat * nat :=
  (if (c <? 2)%nat then Raise (RequestException ConnectionError) else Ok c, S c).

(** One that fails to connect on its first 1025 calls. *)
Definition demo_stubborn (c : nat) : result nat * nat :=
  (if (c <? 1025)%nat then Raise (RequestException ConnectionError) else Ok c, S c).

Definition demo_down (c : nat) : result nat * nat :=
  (Raise (RequestException Timeout), S c).

Definition demo_refused (c : nat) : result nat * nat :=
  (Raise NotInAllowlistError, S c).

Definition demo_wait (delay : Q) (c : nat) : nat := c.

(** An operation interrupted from the keyboard. *)
Definition demo_interrupted (c : nat) : result nat * nat :=
  (Raise KeyboardInterrupt, S c).

(** The sum of a list of delays. *)
Definition total (delays : list Q) : Q := fold_right Qplus 0%Q delays.

(** ** Reading a [repr] back

    The reading of the text that [bytes_repr] writes, the other way round;
    it serves to show that [bytes_repr] loses nothing. *)

Definition hexval (c : ascii) : option N :=
  let n := N_of_ascii c in
  if (48 <=? n)%N && (n <=? 57)%N then Some (n - 48)%N
  else if (97 <=? n)%N && (n <=? 102)%N then Some (n - 87)%N
  else None.

Definition unescape (c : ascii) : ascii :=
  if Ascii.eqb c "t"%char then "009"%char
  else if Ascii.eqb c "n"%char then "010"%char
  else if Ascii.eqb c "r"%char then "013"%char
  else c.

(** The bytes written between the quotes, up to the closing quote. *)
Fixpoint unrepr_body (quote : ascii) (s : string) : option bytes :=
  match s with
  | EmptyString => None
  | String c rest =>
      if Ascii.eqb c quote then
        match rest with
        | EmptyString => Some EmptyString
        | String _ _ => None
        end
      else if Ascii.eqb c "\"%char then
        match rest with
        | EmptyString => None
        | String e rest1 =>
            if Ascii.eqb e "x"%char then
              match rest1 with
              | String h1 (String h2 rest2) =>
                  match hexval h1, hexval h2, unrepr_body quote rest2 with
                  | Some a, Some b, Some tail =>
                      Some (String (ascii_of_N (16 * a + b)) tail)
                  | _, _, _ => None
                  end
              | _ => None
              end
            else
              match unrepr_body quote rest1 with
              | Some tail => Some (String (unescape e) tail)
              | None => None
              end
        end
      else
        match unrepr_body quote rest with
        | Some tail => Some (String c tail)
        | None => None
        end
  end.

Definition unrepr (s : string) : option bytes :=
  match s with
  | String b (String quote body) =>
      if Ascii.eqb b "b"%char
         && (Ascii.eqb quote "'"%char || Ascii.eqb quote "034"%char)
      then unrepr_body quote body
      else None
  | _ => None
  end.

(** ** What the libraries may raise

    [requests.put] fails with one of the transport failures, and
    [response.json()] with [JSONDecodeError]. *)
Definition library_outcome (r : result Response) : Prop :=
  match r with
  | Raise e => exists k, e = RequestException k
  | Ok response => forall e, json response = Raise e -> e = JSONDecodeError
  end.

(** The failures that reading a decoded answer, or failing to get one,
    can raise: none of them an [HTTPError], none a [NonRetriableError]. *)
Definition raised_by_reading (e : exn) : bool :=
  match e with
  | RequestException _ | JSONDecodeError | KeyError _
  | TypeError | AttributeError | ValueError => true
  | _ => false
  end.

(** A world that is the script of the outcomes still to come: a status
    with the decoded body, if the body decodes, or [None] for a failure to
    connect. *)
Definition demo_wire (request : Request) (w : list (option (Z * option pyobj)))
  : result Response * list (option (Z * option pyobj)) :=
  match w with
  | Some (status, Some answer) :: w' => (Ok (mkResponse status (Ok answer)), w')
  | Some (status, None) :: w' => (Ok (mkResponse status (Raise JSONDecodeError)), w')
  | None :: w' => (Raise (RequestException ConnectionError), w')
  | [] => (Raise (RequestException ConnectionError), [])
  end.

Definition demo_wire_sleep (delay : Q) (w : list (option (Z * option pyobj)))
  : list (option (Z * option pyobj)) := w.

(** ** [authorize_with_huggingface]

    The loop of lines 145-196.  The environment variables are those of the
    process; the console answers [input] and [getpass] ([None] when the
    input has ended, which raises [EOFError]) and takes what is printed.
    The texts printed are kept by what they say and the values they
    show. *)

Inductive message : Type :=
| TokenInstructions (organization model : str)       (* lines 157-170 *)
| Contributing (username : str)                      (* line 179 *)
| InvalidTokenNotice                                 (* line 182 *)
| AuthenticationFailed (organization model : str).   (* lines 184-196 *)

(** How the function can fail: with an exception of the join, on a local
    variable that is not bound, or at the end of the input. *)
Inductive failure : Type :=
| Raised (e : exn)
| UnboundLocalError
| EOFError.

Section Interactive.
Variable RSAPublicKey : Type.
Variable from_bytes : bytes -> result RSAPublicKey.
Variable to_bytes : RSAPublicKey -> bytes.
Variable fromisoformat : str -> option datetime.
Variable datetime_str : datetime -> str.
Variable World : Type.
Variable requests_put : Request -> World -> result Response * World.
Variable sleep_world : Q -> World -> World.
(** The key pair of the process, which [TokenAuthorizerBase.__init__]
    picks. *)
Variable process_key : RSAPublicKey.
Variable getenv : str -> option str.                            (* [os.getenv] *)
Variable Console : Type.
Variable input : str -> Console -> option str * Console.        (* [input(prompt)] *)
Variable getpass : str -> Console -> option str * Console.      (* [getpass(prompt)] *)
Variable print : message -> Console -> Console.

(** The local variable [authorizer], bound or not, and the world. *)
Record session : Type := mkSession {
  authorizer : option (HuggingFaceAuthorizer RSAPublicKey);
  network : World;
  console : Console
}.

(** What one turn of [while True] comes to. *)
Inductive step : Type :=
| Return (a : HuggingFaceAuthorizer RSAPublicKey)
| Fail (f : failure)
| Again.

(** [os.getenv(variable)], and [input(prompt)] when it is [None]. *)
Definition ask (variable prompt : str) (c : Console) : option str * Console :=
  match getenv variable with
  | Some value => (Some value, c)
  | None => input prompt c
  end.

Definition authorize_iteration (s : session) : step * session * list event :=
  let (organization, c1) :=
    ask "HF_ORGANIZATION_NAME" "HuggingFace organization name: " (console s) in
  match organization with
  | None => (Fail EOFError, mkSession (authorizer s) (network s) c1, [])
  | Some organization_name =>
  let (model, c2) := ask "HF_MODEL_NAME" "HuggingFace model name: " c1 in
  match model with
  | None => (Fail EOFError, mkSession (authorizer s) (network s) c2, [])
  | Some model_name =>
  (* lines 155-173: the authorizer is built only when the token is typed *)
  let (bound, c3) :=
    match getenv "HF_USER_ACCESS_TOKEN" with
    | Some _ => (Some (authorizer s), c2)
    | None =>
        let (typed, c) :=
          getpass "HF user access token : "
                  (print (TokenInstructions organization_name model_name) c2) in
        (match typed with
         | None => None
         | Some hf_user_access_token =>
             Some (Some (init RSAPublicKey process_key organization_name model_name
                           hf_user_access_token))
         end, c)
    end in
  match bound with
  | None => (Fail EOFError, mkSession (authorizer s) (network s) c3, [])
  | Some None => (Fail UnboundLocalError, mkSession None (network s) c3, [])
  | Some (Some a) =>
      let o := join_experiment RSAPublicKey from_bytes to_bytes fromisoformat
                 datetime_str World requests_put sleep_world (a, network s) in
      let a' := fst (final o) in
      let w' := snd (final o) in
      match returned o with
      | Ok _ =>
          match _local_access_token _ a' with
          | None => (Fail (Raised AttributeError), mkSession (Some a') w' c3, trace o)
          | Some access_token =>
              (Return a',
               mkSession (Some a') w' (print (Contributing (username access_token)) c3),
               trace o)
          end
      | Raise InvalidCredentialsError =>
          (Again, mkSession (Some a') w' (print InvalidTokenNotice c3), trace o)
      | Raise NotInAllowlistError =>
          (Again,
           mkSession (Some a') w'
             (print (AuthenticationFailed organization_name model_name) c3),
           trace o)
      | Raise e => (Fail (Raised e), mkSession (Some a') w' c3, trace o)
      end
  end
  end
  end.

(** [fuel] turns of the loop; [Again] when it is still asking after
    them. *)
Fixpoint authorize_loop (fuel : nat) (s : session) : step * session * list event :=
  match fuel with
  | O => (Again, s, [])
  | S fuel' =>
      match authorize_iteration s with
      | (Again, s', tr) =>
          let '(r, s'', tr') := authorize_loop fuel' s' in (r, s'', (tr ++ tr')%list)
      | done => done
      end
  end.

(** The function starts with [authorizer] not bound. *)
Definition authorize_with_huggingface (fuel : nat) (w : World) (c : Console)
  : step * session * list event :=
  authorize_loop fuel (mkSession None w c).

End Interactive.

(** A console that answers from a script and keeps what is printed. *)
Definition demo_console : Type := (list str * list message)%type.

Definition demo_input (prompt : str) (c : demo_console) : option str * demo_console :=
  match fst c with
  | [] => (None, c)
  | line :: lines => (Some line, (lines, snd c))
  end.

Definition demo_print (m : message) (c : demo_console) : demo_console :=
  (fst c, (snd c ++ [m])%list).

(** An environment that names everything, and one that names nothing. *)
Definition demo_env_full (variable : str) : option str :=
  if String.eqb variable "HF_ORGANIZATION_NAME" then Some "org"
  else if String.eqb variable "HF_MODEL_NAME" then Some "model"
  else if String.eqb variable "HF_USER_ACCESS_TOKEN" then Some "hf_token"
  else None.

Definition demo_env_empty (variable : str) : option str := None.

(** * Properties *)

(** ** The retry loop *)

Lemma n_calls_app (a b : list event) :
  n_calls (a ++ b) = (n_calls a + n_calls b)%nat.
Proof.
  unfold n_calls. now rewrite filter_app, length_app.
Qed.

Lemma sleeps_app (a b : list event) :
  sleeps (a ++ b) = (sleeps a ++ sleeps b)%list.
Proof.
  induction a as [| ev a IH]; [reflexivity |].
  destruct ev; simpl; now rewrite IH.
Qed.

Lemma after_nil {State T} (o : outcome State T) : after [] o = o.
Proof. now destruct o. Qed.

Lemma after_app {State T} (a b : list event) (o : outcome State T) :
  after a (after b o) = after (a ++ b)%list o.
Proof. unfold after; simpl. now rewrite app_assoc. Qed.

Lemma range_cons (n : Z) :
  1 <= n -> range n = 0 :: map Z.of_nat (seq 1 (Z.to_nat n - 1)).
Proof.
  intros Hn. unfold range.
  replace (Z.to_nat n) with (S (Z.to_nat n - 1)) at 1 by lia.
  reflexivity.
Qed.

(** The nanoseconds of a sleep of non-negative and of negative length. *)
Lemma nanoseconds_nonneg (d : Q) :
  (0 <= d)%Q ->
  nanoseconds d = Qceiling (d * inject_Z (10 ^ 9)) /\ 0 <= nanoseconds d.
Proof.
  intros Hd. unfold nanoseconds.
  assert (H : (0 <= d * inject_Z (10 ^ 9))%Q)
    by (apply Qmult_le_0_compat; [exact Hd | discriminate]).
  rewrite (proj2 (Qle_bool_iff _ _) H). split; [reflexivity |].
  apply (Qceiling_resp_le (inject_Z 0)) in H. now rewrite Qceiling_Z in H.
Qed.

Lemma nanoseconds_negative (d : Q) :
  (d < 0)%Q ->
  nanoseconds d = Qfloor (d * inject_Z (10 ^ 9)) /\ nanoseconds d < 0.
Proof.
  intros Hd. unfold nanoseconds.
  assert (H : (d * inject_Z (10 ^ 9) < inject_Z 0)%Q).
  { apply (Qmult_lt_compat_r d 0 (inject_Z (10 ^ 9))); [reflexivity | exact Hd]. }
  destruct (Qle_bool 0 (d * inject_Z (10 ^ 9))) eqn:Hb.
  - apply Qle_bool_iff in Hb. exfalso. exact (Qlt_not_le _ _ H Hb).
  - split; [reflexivity |].
    rewrite Zlt_Qlt. apply Qle_lt_trans with (d * inject_Z (10 ^ 9))%Q;
      [apply Qfloor_le | exact H].
Qed.

(** When [time.sleep] sleeps. *)
Lemma sleep_refusal_none_iff (d : Q) :
  sleep_refusal d = None <->
  (0 <= d)%Q /\ (d * inject_Z (10 ^ 9) <= inject_Z (2 ^ 63 - 1))%Q.
Proof.
  unfold sleep_refusal. destruct (Qlt_le_dec d 0) as [Hneg | Hpos].
  - destruct (nanoseconds_negative d Hneg) as [_ Hns].
    rewrite (proj2 (Z.ltb_lt _ _) Hns).
    split.
    + destruct (_ && _); discriminate.
    + intros [H _]. exfalso. exact (Qlt_not_le _ _ Hneg H).
  - destruct (nanoseconds_nonneg d Hpos) as [Heq Hns].
    rewrite (proj2 (Z.ltb_ge _ _) Hns).
    assert (Hlow : (- 2 ^ 63 <=? nanoseconds d)%Z = true) by (apply Z.leb_le; lia).
    rewrite Hlow. cbn [andb].
    rewrite Heq. destruct (Z.ltb_spec (Qceiling (d * inject_Z (10 ^ 9))) (2 ^ 63)) as [Hlt | Hge].
    + split; [intros _ | reflexivity]. split; [exact Hpos |].
      apply Qle_trans with (inject_Z (Qceiling (d * inject_Z (10 ^ 9)))); 
        [apply Qle_ceiling | rewrite <- Zle_Qle; lia].
    + split; [discriminate |]. intros [_ H]. exfalso.
      apply Qceiling_resp_le in H. rewrite Qceiling_Z in H. lia.
Qed.


(** When the retry at index [i] goes through. *)
Lemma delay_accepted_iff (d : Q) (i : Z) :
  delay_accepted d i = true <->
  i < 1024 /\ (0 <= backoff d i)%Q /\
  (backoff d i * inject_Z (10 ^ 9) <= inject_Z (2 ^ 63 - 1))%Q.
Proof.
  unfold delay_accepted, power_overflows.
  pose proof (sleep_refusal_none_iff (backoff d i)) as Hs.
  destruct (Z.leb_spec 1024 i) as [Hbig | Hsmall]; cbn [negb andb].
  - split; [discriminate | intros [H _]; lia].
  - destruct (sleep_refusal (backoff d i)).
    + split; [discriminate | intros [_ H]]. apply Hs in H. discriminate.
    + split; [intros _ | reflexivity]. split; [exact Hsmall | now apply Hs].
Qed.

Lemma delay_accepted_sleeps (d : Q) (i : Z) :
  delay_accepted d i = true ->
  power_overflows i = false /\ sleep_refusal (backoff d i) = None.
Proof.
  unfold delay_accepted. intros H. apply andb_true_iff in H as [Hpow Hsleep].
  apply negb_true_iff in Hpow. split; [exact Hpow |].
  now destruct (sleep_refusal (backoff d i)).
Qed.

Section RetryFacts.
Context {State T : Type}.
Variable func : State -> result T * State.
Variable func_name : option string.
Variable time_sleep : Q -> State -> State.
Variable n_retries : Z.
Variable initial_delay : Q.

Local Abbreviation loop := (retry_loop func func_name time_sleep n_retries initial_delay).
Local Abbreviation adv := (advance func time_sleep initial_delay).
Local Abbreviation retried := (retried_trace func time_sleep initial_delay).

(** One iteration whose call fails and is retried. *)
Lemma retry_loop_retry (name : string) (i : nat) (rest : list Z) (s : State) :
  func_name = Some name ->
  delay_accepted initial_delay (Z.of_nat i) = true ->
  Z.of_nat i <> n_retries - 1 ->
  fails_transiently func s ->
  loop (Z.of_nat i :: rest) s
  = after (retried name i 1 s) (loop rest (adv i 1 s)).
Proof.
  intros Hname Hd Hi (e & He & Ht).
  unfold transient in Ht. apply andb_true_iff in Ht as [Hexc Hperm].
  apply negb_true_iff in Hperm.
  apply delay_accepted_sleeps in Hd as [Hpow Hsleep].
  simpl. destruct (func s) as [r s1]. simpl in He. subst r. simpl.
  rewrite Hperm, Hexc.
  destruct (Z.eqb_spec (Z.of_nat i) (n_retries - 1)) as [Heq | _]; [contradiction |].
  now rewrite Hpow, Hname, Hsleep.
Qed.

(** [k] iterations whose calls fail and are retried. *)
Lemma retry_loop_prefix (name : string) (k : nat) : forall (i m : nat) (s : State),
  func_name = Some name ->
  (forall j, (j < k)%nat -> delay_accepted initial_delay (Z.of_nat (i + j)) = true) ->
  Z.of_nat (i + k) <= n_retries - 1 ->
  (forall j, (j < k)%nat -> fails_transiently func (adv i j s)) ->
  loop (map Z.of_nat (seq i (k + m))) s
  = after (retried name i k s) (loop (map Z.of_nat (seq (i + k) m)) (adv i k s)).
Proof.
  induction k as [| k IH]; intros i m s Hname Hd Hlast Hfail.
  - simpl. rewrite Nat.add_0_r. now rewrite after_nil.
  - change (map Z.of_nat (seq i (S k + m)))
      with (Z.of_nat i :: map Z.of_nat (seq (S i) (k + m))).
    rewrite (retry_loop_retry name);
      [| exact Hname
       | specialize (Hd 0%nat ltac:(lia)); now rewrite Nat.add_0_r in Hd
       | lia | exact (Hfail 0%nat ltac:(lia))].
    rewrite (IH (S i) m); [| exact Hname | | lia |].
    + rewrite after_app. replace (S i + k)%nat with (i + S k)%nat by lia.
      simpl. now rewrite app_nil_r.
    + intros j Hj. specialize (Hd (S j) ltac:(lia)).
      now replace (S i + j)%nat with (i + S j)%nat by lia.
    + intros j Hj. exact (Hfail (S j) ltac:(lia)).
Qed.

Lemma n_calls_retried (name : string) (k : nat) : forall (i : nat) (s : State),
  (forall j, (j < k)%nat -> fails_transiently func (adv i j s)) ->
  n_calls (retried name i k s) = k.
Proof.
  induction k as [| k IH]; intros i s Hfail; [reflexivity |].
  destruct (Hfail 0%nat ltac:(lia)) as (e & He & _). simpl in He.
  simpl. rewrite He. rewrite n_calls_app, IH; [reflexivity |].
  intros j Hj. exact (Hfail (S j) ltac:(lia)).
Qed.

Lemma sleeps_retried (name : string) (k : nat) : forall (i : nat) (s : State),
  (forall j, (j < k)%nat -> fails_transiently func (adv i j s)) ->
  sleeps (retried name i k s) = backoffs initial_delay i k.
Proof.
  induction k as [| k IH]; intros i s Hfail; [reflexivity |].
  destruct (Hfail 0%nat ltac:(lia)) as (e & He & _). simpl in He.
  simpl. rewrite He. rewrite sleeps_app, IH; [reflexivity |].
  intros j Hj. exact (Hfail (S j) ltac:(lia)).
Qed.

(** Over the indices that end at [n_retries - 1], a successful return of
    the loop comes from a successful call. *)
Lemma retry_loop_returns (m : nat) : forall (i : nat) (s : State) (r : option T),
  (i + S m = Z.to_nat n_retries)%nat ->
  returned (loop (map Z.of_nat (seq i (S m))) s) = Ok r ->
  exists s' v, func s' = (Ok v, final (loop (map Z.of_nat (seq i (S m))) s))
               /\ r = Some v.
Proof.
  induction m as [| m IH]; intros i s r Hlen Hr.
  - simpl in *. destruct (func s) as [[v | e] s1] eqn:Hf.
    + simpl in *. exists s, v. split; congruence.
    + destruct (isinstance_NonRetriableError e); [discriminate |].
      destruct (isinstance_Exception e); [| discriminate].
      destruct (Z.eqb_spec (Z.of_nat i) (n_retries - 1)) as [_ | Hne];
        [discriminate | lia].
  - change (map Z.of_nat (seq i (S (S m))))
      with (Z.of_nat i :: map Z.of_nat (seq (S i) (S m))) in *.
    cbn [retry_loop] in *. destruct (func s) as [[v | e] s1] eqn:Hf.
    + simpl in *. exists s, v. split; congruence.
    + destruct (isinstance_NonRetriableError e); [discriminate |].
      destruct (isinstance_Exception e); [| discriminate].
      destruct (Z.of_nat i =? n_retries - 1)%Z; [discriminate |].
      destruct (power_overflows (Z.of_nat i)); [discriminate |].
      destruct func_name as [name |]; [| discriminate].
      destruct (sleep_refusal (backoff initial_delay (Z.of_nat i)));
        [discriminate |].
      cbn [after returned final] in *.
      apply (IH (S i)); [lia | exact Hr].
Qed.

(** The first event of a run over a non-empty range is a call. *)
Lemma retry_loop_calls_first (i : Z) (rest : list Z) (s : State) :
  exists tr, trace (loop (i :: rest) s) = Called :: tr.
Proof.
  simpl. destruct (func s) as [[v | e] s1]; [now eexists |].
  destruct (isinstance_NonRetriableError e); [now eexists |].
  destruct (isinstance_Exception e); [| now eexists].
  destruct (i =? n_retries - 1)%Z; [now eexists |].
  destruct (power_overflows i); [now eexists |].
  destruct func_name as [name |]; [| now eexists].
  destruct (sleep_refusal (backoff initial_delay i)); now eexists.
Qed.

Local Abbreviation cwr := (call_with_retries func func_name time_sleep n_retries initial_delay).
Local Abbreviation before := (state_before func time_sleep initial_delay).

(** A value returned by [call_with_retries], one attempt at least being
    allowed, is the value of a call that succeeded and left the final
    state. *)
Lemma call_with_retries_returns (s : State) (r : option T) :
  1 <= n_retries ->
  returned (cwr s) = Ok r ->
  exists s' v, func s' = (Ok v, final (cwr s)) /\ r = Some v.
Proof.
  intros Hn. unfold call_with_retries, range.
  replace (Z.to_nat n_retries) with (S (Z.to_nat n_retries - 1)) by lia.
  apply retry_loop_returns. lia.
Qed.

(** The first event of a run, one attempt at least being allowed, is a
    call. *)
Lemma call_with_retries_calls_first (s : State) :
  1 <= n_retries ->
  exists tr, trace (cwr s) = Called :: tr.
Proof.
  intros Hn. unfold call_with_retries. rewrite (range_cons _ Hn).
  apply retry_loop_calls_first.
Qed.

(** A permanent failure of the first call ends the run. *)
Lemma call_with_retries_permanent (s : State) (e : exn) :
  1 <= n_retries ->
  fst (func s) = Raise e ->
  isinstance_NonRetriableError e = true ->
  cwr s = mkOutcome (Raise e) (snd (func s)) [Called].
Proof.
  intros Hn He Hperm. unfold call_with_retries.
  rewrite (range_cons _ Hn). simpl.
  destruct (func s) as [r s1]. simpl in He. subst r. simpl.
  now rewrite Hperm.
Qed.

(** C5 (amended): when at least one attempt is allowed ([n_retries >= 1])
    and the first call of the operation raises a permanent failure,
    [call_with_retries] raises that failure at once: the operation has been
    called exactly once and no sleep was performed, whatever the number of
    attempts allowed. *)
Theorem permanent_failure_raised_at_once (s : State) (e : exn) :
  1 <= n_retries ->
  fst (func s) = Raise e ->
  isinstance_NonRetriableError e = true ->
  returned (cwr s) = Raise e /\
  final (cwr s) = snd (func s) /\
  trace (cwr s) = [Called] /\
  n_calls (trace (cwr s)) = 1%nat /\
  sleeps (trace (cwr s)) = [].
Proof.
  intros Hn He Hperm.
  rewrite (call_with_retries_permanent s e Hn He Hperm). repeat split.
Qed.

(** A transient failure of the first call, when more attempts are allowed,
    the operation has a name and [time.sleep] accepts the initial delay, is
    followed by a warning, a sleep of [initial_delay] and a second call. *)
Lemma call_with_retries_transient (name : string) (s : State) (e : exn) :
  2 <= n_retries ->
  func_name = Some name ->
  delay_accepted initial_delay 0 = true ->
  fst (func s) = Raise e ->
  transient e = true ->
  exists tr, trace (cwr s)
             = Called :: Warned name e (backoff initial_delay 0)
                 :: Slept (backoff initial_delay 0) :: Called :: tr.
Proof.
  intros Hn Hname Hd He Ht. unfold call_with_retries, range.
  replace (Z.to_nat n_retries) with (S (S (Z.to_nat n_retries - 2))) by lia.
  change (map Z.of_nat (seq 0 (S (S (Z.to_nat n_retries - 2)))))
    with (Z.of_nat 0 :: 1 :: map Z.of_nat (seq 2 (Z.to_nat n_retries - 2))).
  rewrite (retry_loop_retry name);
    [| exact Hname | exact Hd | simpl; lia | now exists e].
  destruct (retry_loop_calls_first 1
              (map Z.of_nat (seq 2 (Z.to_nat n_retries - 2)))
              (advance func time_sleep initial_delay 0 1 s)) as [tr Htr].
  exists tr. cbn [after trace retried_trace]. rewrite He, Htr. reflexivity.
Qed.

(** C6 (amended): for [N >= 1], when the operation has a [__name__], each
    delay [initial_delay * 2^i], [i = 0 .. N - 2], is one that is computed
    and that [time.sleep] accepts ([i < 1024], the delay not negative and,
    in nanoseconds, below [2^63]), the first [N - 1] calls of the operation
    raise transient failures and call number [N] succeeds,
    [call_with_retries] with [n_retries >= N] returns the value of the
    successful call, has called the operation exactly [N] times and has
    slept exactly [N - 1] times, for [initial_delay * 2^i],
    [i = 0 .. N - 2], in this order. *)
Theorem transient_failures_retried_with_backoff
    (N : nat) (name : string) (s0 : State) (v : T) :
  (1 <= N)%nat ->
  Z.of_nat N <= n_retries ->
  func_name = Some name ->
  (forall i, (i < N - 1)%nat -> delay_accepted initial_delay (Z.of_nat i) = true) ->
  (forall j, (j < N - 1)%nat -> fails_transiently func (before j s0)) ->
  fst (func (before (N - 1) s0)) = Ok v ->
  returned (cwr s0) = Ok (Some v) /\
  n_calls (trace (cwr s0)) = N /\
  List.length (sleeps (trace (cwr s0))) = (N - 1)%nat /\
  sleeps (trace (cwr s0))
  = map (fun i => (initial_delay * inject_Z (2 ^ Z.of_nat i))%Q) (seq 0 (N - 1)).
Proof.
  intros HN Hn Hname Hd Hfail Hok.
  assert (Hsleeps : sleeps (trace (cwr s0)) = backoffs initial_delay 0 (N - 1)
                    /\ returned (cwr s0) = Ok (Some v)
                    /\ n_calls (trace (cwr s0)) = N).
  { unfold call_with_retries, range.
    replace (Z.to_nat n_retries)
      with ((N - 1) + S (Z.to_nat n_retries - N))%nat by lia.
    rewrite (retry_loop_prefix name); [| exact Hname | exact Hd | lia | exact Hfail].
    change (seq (0 + (N - 1)) (S (Z.to_nat n_retries - N)))
      with ((0 + (N - 1))%nat :: seq (S (0 + (N - 1))) (Z.to_nat n_retries - N)).
    cbn [map retry_loop]. unfold state_before in Hok.
    destruct (func (advance func time_sleep initial_delay 0 (N - 1) s0))
      as [r s1]. simpl in Hok. subst r.
    cbn [after returned trace]. rewrite sleeps_app, n_calls_app.
    rewrite sleeps_retried, n_calls_retried by exact Hfail.
    simpl. rewrite app_nil_r. repeat split. unfold n_calls; simpl. lia. }
  destruct Hsleeps as (Hs & Hr & Hc). rewrite Hs.
  repeat split; try assumption.
  unfold backoffs. now rewrite length_map, length_seq.
Qed.

(** C7 (amended): for [n_retries = N >= 1], when the operation has a
    [__name__], each delay [initial_delay * 2^i], [i = 0 .. N - 2], is one
    that is computed and that [time.sleep] accepts ([i < 1024], the delay
    not negative and, in nanoseconds, below [2^63]), and each of the [N]
    calls of the operation raises a transient failure, [call_with_retries]
    has called the operation exactly [N] times and raises the failure of
    call number [N]; it has slept [N - 1] times, and the last event is that
    call, not a sleep. *)
Theorem attempts_exhausted_last_failure_raised (N : nat) (name : string) (s0 : State) :
  (1 <= N)%nat ->
  n_retries = Z.of_nat N ->
  func_name = Some name ->
  (forall i, (i < N - 1)%nat -> delay_accepted initial_delay (Z.of_nat i) = true) ->
  (forall j, (j < N)%nat -> fails_transiently func (before j s0)) ->
  (exists e, fst (func (before (N - 1) s0)) = Raise e /\
             returned (cwr s0) = Raise e) /\
  n_calls (trace (cwr s0)) = N /\
  sleeps (trace (cwr s0)) = backoffs initial_delay 0 (N - 1) /\
  exists tr, trace (cwr s0) = (tr ++ [Called])%list.
Proof.
  intros HN Hn Hname Hd Hfail.
  destruct (Hfail (N - 1)%nat ltac:(lia)) as (e & He & Ht).
  unfold call_with_retries, range.
  replace (Z.to_nat n_retries) with ((N - 1) + 1)%nat by lia.
  rewrite (retry_loop_prefix name);
    [| exact Hname | exact Hd | lia | intros j Hj; apply Hfail; lia].
  change (seq (0 + (N - 1)) 1) with [(0 + (N - 1))%nat].
  cbn [map retry_loop]. unfold state_before in *.
  destruct (func (advance func time_sleep initial_delay 0 (N - 1) s0))
    as [r s1]. simpl in He. subst r.
  pose proof Ht as Ht'. unfold transient in Ht'.
  apply andb_true_iff in Ht' as [Hexc Hperm]. apply negb_true_iff in Hperm.
  rewrite Hperm, Hexc.
  destruct (Z.eqb_spec (Z.of_nat (0 + (N - 1))) (n_retries - 1)) as [_ | Hne];
    [| lia].
  cbn [after returned trace]. rewrite sleeps_app, n_calls_app.
  rewrite sleeps_retried, n_calls_retried
    by (intros j Hj; apply Hfail; lia).
  simpl. rewrite app_nil_r. repeat split.
  - now exists e.
  - unfold n_calls; simpl. lia.
  - now eexists.
Qed.

End RetryFacts.

(** ** The join exchange *)

Section JoinFacts.
Variable RSAPublicKey : Type.
Variable from_bytes : bytes -> result RSAPublicKey.
Variable to_bytes : RSAPublicKey -> bytes.
Variable fromisoformat : str -> option datetime.
Variable datetime_str : datetime -> str.
Variable World : Type.
Variable requests_put : Request -> World -> result Response * World.
Variable sleep_world : Q -> World -> World.

Local Abbreviation Authorizer := (HuggingFaceAuthorizer RSAPublicKey).
Local Abbreviation body :=
  (join_body RSAPublicKey from_bytes to_bytes fromisoformat datetime_str World requests_put).
Local Abbreviation join :=
  (_join_experiment RSAPublicKey from_bytes to_bytes fromisoformat datetime_str World
     requests_put).
Local Abbreviation request := (join_request RSAPublicKey to_bytes).
Local Abbreviation read_token := (read_access_token fromisoformat datetime_str).

Ltac run_monad :=
  unfold join_body, bind, lift, get_self, update_self, put; cbn [fst snd].

(** Case analysis on the next call whose result decides the run. *)
Ltac plain x :=
  lazymatch x with
  | context [match _ with Ok _ => _ | Raise _ => _ end] => fail
  | context [let (_, _) := _ in _] => fail
  | _ => idtac
  end.

Ltac case_step :=
  match goal with
  | |- context [let (_, _) := ?x in _] => plain x; destruct x as [? ?] eqn:?
  | |- context [match ?x with Ok _ => _ | Raise _ => _ end] => plain x; destruct x eqn:?
  end; cbn [fst snd].

(** What the [try] block does, by the stage it reaches. *)
Lemma join_body_transport_failure (a : Authorizer) (w w' : World) (e : exn) :
  requests_put (request a) w = (Raise e, w') ->
  body (a, w) = (Raise e, (a, w')).
Proof. intros Hput. run_monad. now rewrite Hput. Qed.

Lemma join_body_error_status (a : Authorizer) (w w' : World) (response : Response) :
  requests_put (request a) w = (Ok response, w') ->
  (400 <= status_code response < 600)%Z ->
  body (a, w) = (Raise (HTTPError (status_code response)), (a, w')).
Proof.
  intros Hput Hstatus. run_monad. rewrite Hput. unfold raise_for_status.
  destruct (Z.leb_spec 400 (status_code response)); [| lia].
  destruct (Z.ltb_spec (status_code response) 600); [| lia].
  reflexivity.
Qed.

Lemma join_body_undecodable (a : Authorizer) (w w' : World) (response : Response) (e : exn) :
  requests_put (request a) w = (Ok response, w') ->
  raise_for_status response = Ok tt ->
  json response = Raise e ->
  body (a, w) = (Raise e, (a, w')).
Proof. intros Hput Hstatus Hjson. run_monad. now rewrite Hput, Hstatus, Hjson. Qed.

(** A run of the [try] block: on success every field comes from the
    decoded answer; on failure the held token and the configuration are
    those it started with. *)
Lemma join_body_cases (a : Authorizer) (w : World) :
  match body (a, w) with
  | (Ok _, (a', w')) =>
      exists response answer key_text key_bytes key token,
        requests_put (request a) w = (Ok response, w') /\
        raise_for_status response = Ok tt /\
        json response = Ok answer /\
        subscript answer "auth_server_public_key" = Ok key_text /\
        encode key_text = Ok key_bytes /\
        from_bytes key_bytes = Ok key /\
        subscript answer "coordinator_ip" = Ok (coordinator_ip _ a') /\
        subscript answer "coordinator_port" = Ok (coordinator_port _ a') /\
        read_token answer = Ok token /\
        a' = mkAuthorizer _ (organization_name _ a) (model_name _ a)
               (hf_user_access_token _ a) (local_public_key _ a)
               (Some token) (Some key) (coordinator_ip _ a') (coordinator_port _ a')
  | (Raise _, (a', w')) =>
      _local_access_token _ a' = _local_access_token _ a /\
      organization_name _ a' = organization_name _ a /\
      model_name _ a' = model_name _ a /\
      hf_user_access_token _ a' = hf_user_access_token _ a /\
      local_public_key _ a' = local_public_key _ a
  end.
Proof.
  run_monad.
  repeat case_step; try (repeat split; reflexivity).
  match goal with u : unit |- _ => destruct u end.
  do 6 eexists. repeat split; eauto.
Qed.

(** The [except] clause changes the exception only. *)
Lemma join_state (st : Env RSAPublicKey World) : snd (join st) = snd (body st).
Proof.
  unfold _join_experiment. destruct (body st) as [[u | e] st']; [reflexivity |].
  destruct e; try reflexivity.
  match goal with |- context [(?s =? 401)%Z] => now destruct (s =? 401)%Z end.
Qed.

Lemma join_ok (st : Env RSAPublicKey World) (u : unit) :
  fst (join st) = Ok u <-> fst (body st) = Ok u.
Proof.
  unfold _join_experiment. destruct (body st) as [[u' | e] st']; [reflexivity |].
  destruct e; try reflexivity.
  match goal with |- context [(?s =? 401)%Z] => now destruct (s =? 401)%Z end.
Qed.

Local Abbreviation join_with_retries :=
  (join_experiment RSAPublicKey from_bytes to_bytes fromisoformat datetime_str World
     requests_put sleep_world).
Local Abbreviation token :=
  (get_token RSAPublicKey from_bytes to_bytes fromisoformat datetime_str World
     requests_put sleep_world).

Lemma join_transport_failure (a : Authorizer) (w w' : World) (k : request_failure) :
  requests_put (request a) w = (Raise (RequestException k), w') ->
  join (a, w) = (Raise (RequestException k), (a, w')).
Proof.
  intros Hput. unfold _join_experiment.
  now rewrite (join_body_transport_failure a w w' _ Hput).
Qed.

Lemma join_error_status (a : Authorizer) (w w' : World) (response : Response) :
  requests_put (request a) w = (Ok response, w') ->
  (400 <= status_code response < 600)%Z ->
  join (a, w)
  = (if (status_code response =? 401)%Z then Raise NotInAllowlistError
     else Raise (HTTPError (status_code response)), (a, w')).
Proof.
  intros Hput Hstatus. unfold _join_experiment.
  rewrite (join_body_error_status a w w' response Hput Hstatus).
  now destruct (status_code response =? 401)%Z.
Qed.

(** C3: a join attempt answered with status 401 raises
    [NotInAllowlistError], a [NonRetriableError], and under the retry policy
    [join_experiment] then stops after this one call; an answer with any
    other error status (4xx or 5xx) raises the [HTTPError] and a failure of
    the transport raises its exception, neither of them a
    [NonRetriableError]; and when a join attempt raises such a failure,
    [join_experiment] warns, sleeps for the initial delay and calls again. *)
Theorem join_failures_classified (a : Authorizer) (w w' : World) :
  (forall response,
     requests_put (request a) w = (Ok response, w') ->
     status_code response = 401%Z ->
     join (a, w) = (Raise NotInAllowlistError, (a, w')) /\
     isinstance_NonRetriableError NotInAllowlistError = true /\
     join_with_retries (a, w)
     = mkOutcome (Raise NotInAllowlistError) (a, w') [Called]) /\
  (forall response,
     requests_put (request a) w = (Ok response, w') ->
     (400 <= status_code response < 600)%Z ->
     status_code response <> 401%Z ->
     join (a, w) = (Raise (HTTPError (status_code response)), (a, w')) /\
     isinstance_NonRetriableError (HTTPError (status_code response)) = false /\
     transient (HTTPError (status_code response)) = true) /\
  (forall k,
     requests_put (request a) w = (Raise (RequestException k), w') ->
     join (a, w) = (Raise (RequestException k), (a, w')) /\
     isinstance_NonRetriableError (RequestException k) = false /\
     transient (RequestException k) = true) /\
  (forall e,
     fst (join (a, w)) = Raise e ->
     transient e = true ->
     exists tr, trace (join_with_retries (a, w))
                = Called :: Warned "_join_experiment" e 1 :: Slept 1 :: Called :: tr).
Proof.
  repeat split.
  - rewrite (join_error_status a w w' response H); [| lia]. now rewrite H0.
  - unfold join_experiment.
    assert (Hjoin : join (a, w) = (Raise NotInAllowlistError, (a, w'))).
    { rewrite (join_error_status a w w' response H); [| lia]. now rewrite H0. }
    rewrite (call_with_retries_permanent _ _ _ 10%Z 1%Q (a, w) NotInAllowlistError);
      [now rewrite Hjoin | lia | now rewrite Hjoin | reflexivity].
  - rewrite (join_error_status a w w' response H H0).
    destruct (Z.eqb_spec (status_code response) 401); [contradiction | reflexivity].
  - now apply join_transport_failure.
  - intros e He Ht. unfold join_experiment. cbn [trace].
    destruct (call_with_retries_transient join (Some "_join_experiment")
                (time_sleep RSAPublicKey World sleep_world) 10%Z 1%Q
                "_join_experiment" (a, w) e)
      as [tr Htr]; [lia | reflexivity | reflexivity | exact He | exact Ht |].
    exists tr. exact Htr.
Qed.

(** C8 (amended): a join attempt that succeeds stores the authority key,
    the coordinator address and the token of one and the same answer; a
    join attempt that raises leaves the held token as it was, and leaves the
    whole authorizer as it was when the request failed, the status was an
    error or the body did not decode. *)
Theorem join_stores_all_or_keeps_token (a : Authorizer) (w : World) :
  match join (a, w) with
  | (Ok _, (a', w')) =>
      exists response answer key_text key_bytes key access_token,
        requests_put (request a) w = (Ok response, w') /\
        raise_for_status response = Ok tt /\
        json response = Ok answer /\
        subscript answer "auth_server_public_key" = Ok key_text /\
        encode key_text = Ok key_bytes /\
        from_bytes key_bytes = Ok key /\
        subscript answer "coordinator_ip" = Ok (coordinator_ip _ a') /\
        subscript answer "coordinator_port" = Ok (coordinator_port _ a') /\
        read_token answer = Ok access_token /\
        _authority_public_key _ a' = Some key /\
        _local_access_token _ a' = Some access_token
  | (Raise _, (a', w')) =>
      _local_access_token _ a' = _local_access_token _ a /\
      (answer_decoded (fst (requests_put (request a) w)) = false -> a' = a)
  end.
Proof.
  pose proof (join_body_cases a w) as Hbody.
  pose proof (join_state (a, w)) as Hstate.
  unfold _join_experiment in *.
  destruct (body (a, w)) as [[u | e] [a' w']] eqn:Hrun.
  - destruct Hbody as (response & answer & key_text & key_bytes & key & tok & H).
    exists response, answer, key_text, key_bytes, key, tok.
    destruct H as (? & ? & ? & ? & ? & ? & ? & ? & ? & Ha').
    repeat split; try assumption; rewrite Ha'; reflexivity.
  - assert (Hgoal : _local_access_token _ a' = _local_access_token _ a /\
                    (answer_decoded (fst (requests_put (request a) w)) = false -> a' = a)).
    { split; [apply Hbody |]. intros Hfailed.
      destruct (requests_put (request a) w) as [[response | e0] w1] eqn:Hput.
      - simpl in Hfailed.
        destruct (raise_for_status response) as [[] | e1] eqn:Hst.
        + destruct (json response) as [answer | e2] eqn:Hjs; [discriminate |].
          rewrite (join_body_undecodable a w w1 response e2 Hput Hst Hjs) in Hrun.
          congruence.
        + assert (Hrange : (400 <= status_code response < 600)%Z).
          { unfold raise_for_status in Hst.
            destruct (Z.leb_spec 400 (status_code response));
              destruct (Z.ltb_spec (status_code response) 600);
              simpl in Hst; try discriminate. lia. }
          rewrite (join_body_error_status a w w1 response Hput Hrange) in Hrun.
          congruence.
      - rewrite (join_body_transport_failure a w w1 e0 Hput) in Hrun. congruence. }
    destruct e; try exact Hgoal.
    match goal with |- context [(?s =? 401)%Z] => now destruct (s =? 401)%Z end.
Qed.

(** C1 (amended): [get_token] joins every time it is called, whether or not
    a token is held and whatever its expiration: a run of [get_token] starts
    with a call of [_join_experiment]; and when it returns, what it returns
    is the token held after the call, which a join of this run has stored. *)
Theorem get_token_always_joins (st : Env RSAPublicKey World) :
  (exists tr, trace (token st) = Called :: tr) /\
  (forall v, returned (token st) = Ok v ->
     v = _local_access_token _ (fst (final (token st))) /\
     exists st' access_token,
       join st' = (Ok tt, final (token st)) /\ v = Some access_token).
Proof.
  unfold get_token, join_experiment. cbn [returned final trace].
  set (o := call_with_retries join (Some "_join_experiment")
              (time_sleep RSAPublicKey World sleep_world) 10 1 st).
  split.
  - assert (Hfirst : exists tr, trace o = Called :: tr)
      by (apply call_with_retries_calls_first; lia).
    destruct (returned o); exact Hfirst.
  - intros v Hv. destruct (returned o) as [r | e] eqn:Hr; [| discriminate].
    cbn [returned final] in *. split; [congruence |].
    destruct (call_with_retries_returns join (Some "_join_experiment")
                (time_sleep RSAPublicKey World sleep_world) 10%Z 1%Q st r
                ltac:(lia) Hr) as (st' & u & Hjoin & _).
    fold o in Hjoin. destruct u. destruct st' as [a0 w0].
    pose proof (join_body_cases a0 w0) as Hbody.
    pose proof (join_state (a0, w0)) as Hstate.
    pose proof (proj1 (join_ok (a0, w0) tt)) as Hok.
    rewrite Hjoin in Hstate, Hok. specialize (Hok eq_refl).
    destruct (body (a0, w0)) as [r0 [a' w']]. simpl in Hok, Hstate. subst r0.
    destruct Hbody as (? & ? & ? & ? & ? & tok & H).
    exists (a0, w0), tok. split; [exact Hjoin |].
    injection Hv as <-. rewrite Hstate. cbn [fst].
    destruct H as (_ & _ & _ & _ & _ & _ & _ & _ & _ & ->). reflexivity.
Qed.

End JoinFacts.

(** ** Local checks of a token *)

Section TokenFacts.
Variable RSAPublicKey : Type.
Variable verify : RSAPublicKey -> bytes -> bytes -> bool.
Variable fromisoformat : str -> option datetime.

Local Abbreviation Authorizer := (HuggingFaceAuthorizer RSAPublicKey).
Local Abbreviation valid := (is_token_valid RSAPublicKey verify fromisoformat).
Local Abbreviation needs_refreshing := (does_token_need_refreshing RSAPublicKey fromisoformat).

(** With a key held, [is_token_valid] returns a boolean, [true] exactly
    when all four checks pass. *)
Lemma is_token_valid_true (self : Authorizer) (key : RSAPublicKey) (now : Z)
    (t : AccessToken) :
  _authority_public_key _ self = Some key ->
  (valid self now t = Ok true <->
   verify key (_token_to_bytes t) (signature t) = true /\
   exists expiration,
     fromisoformat (expiration_time t) = Some expiration /\
     tzinfo expiration = None /\
     ~ (ticks expiration < now)%Z).
Proof.
  intros Hkey. unfold is_token_valid. rewrite Hkey.
  destruct (verify key (_token_to_bytes t) (signature t)); simpl.
  - destruct (fromisoformat (expiration_time t)) as [expiration |].
    + destruct expiration as [x [offset |]]; simpl.
      * split; [discriminate |]. intros (_ & d & Hd & Htz & _).
        injection Hd as Hd; subst d. discriminate.
      * destruct (Z.ltb_spec x now); split.
        -- discriminate.
        -- intros (_ & d & Hd & _ & Hlt). injection Hd as Hd; subst d. simpl in Hlt. exfalso; lia.
        -- intros _. split; [reflexivity |]. eexists. repeat split. simpl. lia.
        -- reflexivity.
    + split; [discriminate |]. intros (_ & d & Hd & _). discriminate.
  - split; [discriminate |]. intros [Hv _]. discriminate.
Qed.

Lemma is_token_valid_returns (self : Authorizer) (key : RSAPublicKey) (now : Z)
    (t : AccessToken) :
  _authority_public_key _ self = Some key ->
  exists b, valid self now t = Ok b.
Proof.
  intros Hkey. unfold is_token_valid. rewrite Hkey.
  destruct (verify key (_token_to_bytes t) (signature t)); simpl; [| now eexists].
  destruct (fromisoformat (expiration_time t)) as [[x [offset |]] |]; simpl;
    try (now eexists).
  destruct (x <? now)%Z; now eexists.
Qed.


(** C9: for a token whose expiration time does not parse,
    [does_token_need_refreshing] raises the [ValueError] of the parser and
    returns no boolean, while [is_token_valid], with an authority key held,
    returns [False] for the same token. *)
Theorem unparsable_expiration_raises_or_invalid (self : Authorizer) (now : Z)
    (t : AccessToken) :
  fromisoformat (expiration_time t) = None ->
  needs_refreshing self now t = Raise ValueError /\
  (forall b, needs_refreshing self now t <> Ok b) /\
  (forall key, _authority_public_key _ self = Some key ->
               valid self now t = Ok false).
Proof.
  intros Hparse. unfold does_token_need_refreshing, is_token_valid.
  rewrite Hparse. repeat split; try discriminate.
  intros key Hkey. rewrite Hkey.
  now destruct (verify key (_token_to_bytes t) (signature t)).
Qed.

(** C10 (amended): on an authorizer whose authority key is unset, as
    [__init__] leaves it, [is_token_valid] raises ([AttributeError], at the
    call of [verify]) for every token and every clock, and returns no
    boolean. *)
Theorem is_token_valid_without_key_raises (self : Authorizer) (now : Z) (t : AccessToken) :
  _authority_public_key _ self = None ->
  valid self now t = Raise AttributeError /\
  (forall b, valid self now t <> Ok b) /\
  (forall local_key organization model user_token,
     valid (init _ local_key organization model user_token) now t
     = Raise AttributeError).
Proof.
  intros Hkey. unfold is_token_valid. rewrite Hkey.
  repeat split; discriminate.
Qed.

End TokenFacts.

(** ** The properties at work on the small instance *)

Local Abbreviation demo_call_with_retries func :=
  (call_with_retries func (Some "operation") demo_wait).
Local Abbreviation demo_join :=
  (_join_experiment string demo_from_bytes demo_to_bytes demo_fromisoformat
     demo_datetime_str (list (result Response)) demo_put).
Local Abbreviation demo_join_experiment :=
  (join_experiment string demo_from_bytes demo_to_bytes demo_fromisoformat
     demo_datetime_str (list (result Response)) demo_put demo_sleep).
Local Abbreviation demo_get_token :=
  (get_token string demo_from_bytes demo_to_bytes demo_fromisoformat
     demo_datetime_str (list (result Response)) demo_put demo_sleep).
Local Abbreviation demo_is_token_valid :=
  (is_token_valid string demo_verify demo_fromisoformat).
Local Abbreviation demo_needs_refreshing :=
  (does_token_need_refreshing string demo_fromisoformat).

(** C1, as the specification words it, fails: an authorizer that holds a
    token expiring in one hour, which needs no refreshing, joins all the
    same when [get_token] is called. *)
Lemma get_token_not_lazy :
  ~ lazy_refresh_spec string demo_from_bytes demo_to_bytes demo_fromisoformat
      demo_datetime_str (list (result Response)) demo_put demo_sleep
      demo_now (demo_joined, [Ok demo_granted]).
Proof.
  unfold lazy_refresh_spec. intros [Hjoined _].
  assert (Hcalls : n_calls (trace (demo_get_token (demo_joined, [Ok demo_granted]))) <> 0%nat)
    by (vm_compute; discriminate).
  destruct (Hjoined Hcalls) as [Hnone | (t & Hheld & Hneeds)].
  - discriminate.
  - injection Hheld as <-. vm_compute in Hneeds. discriminate.
Qed.

Example get_token_joins_again :
  trace (demo_get_token (demo_joined, [Ok demo_granted])) = [Called] /\
  demo_needs_refreshing demo_joined demo_now demo_token = Ok false.
Proof. split; reflexivity. Qed.

Example join_refused_with_401 :
  demo_join (demo_fresh, [Ok (mkResponse 401 (Raise JSONDecodeError))])
  = (Raise NotInAllowlistError, (demo_fresh, [])).
Proof. reflexivity. Qed.

Example join_unavailable_with_503 :
  demo_join (demo_fresh, [Ok (mkResponse 503 (Raise JSONDecodeError))])
  = (Raise (HTTPError 503), (demo_fresh, [])).
Proof. reflexivity. Qed.

Example join_experiment_retries_after_503 :
  returned (demo_join_experiment
              (demo_fresh, [Ok (mkResponse 503 (Raise JSONDecodeError)); Ok demo_granted]))
  = Ok tt /\
  trace (demo_join_experiment
           (demo_fresh, [Ok (mkResponse 503 (Raise JSONDecodeError)); Ok demo_granted]))
  = [Called; Warned "_join_experiment" (HTTPError 503) 1; Slept 1; Called].
Proof. split; reflexivity. Qed.

(** C5, as the specification words it, fails when no attempt is allowed:
    the operation is not called and nothing is raised. *)
Lemma permanent_failure_spec_fails_without_attempts :
  ~ permanent_failure_spec demo_refused (Some "operation") demo_wait 0 1 0%nat.
Proof.
  intros Hspec.
  destruct (Hspec NotInAllowlistError eq_refl eq_refl) as [Hraised _].
  discriminate.
Qed.

Example no_attempt_allowed :
  demo_call_with_retries demo_refused 0 1 0%nat = mkOutcome (Ok None) 0%nat [].
Proof. reflexivity. Qed.

(** C5 (amended) on the instance, three attempts allowed. *)
Lemma permanent_failure_raised_at_once_witness :
  1 <= 3 /\
  fst (demo_refused 0%nat) = Raise NotInAllowlistError /\
  isinstance_NonRetriableError NotInAllowlistError = true /\
  returned (demo_call_with_retries demo_refused 3 1 0%nat) = Raise NotInAllowlistError /\
  final (demo_call_with_retries demo_refused 3 1 0%nat) = snd (demo_refused 0%nat) /\
  trace (demo_call_with_retries demo_refused 3 1 0%nat) = [Called] /\
  n_calls (trace (demo_call_with_retries demo_refused 3 1 0%nat)) = 1%nat /\
  sleeps (trace (demo_call_with_retries demo_refused 3 1 0%nat)) = [].
Proof.
  split; [lia |]. split; [reflexivity |]. split; [reflexivity |].
  apply (permanent_failure_raised_at_once demo_refused (Some "operation") demo_wait 3 1
           0%nat NotInAllowlistError); [lia | reflexivity | reflexivity].
Defined.

(** The counter after [k] retried calls of an operation that counts its
    calls. *)
Lemma advance_counts (func : nat -> result nat * nat) (d : Q) :
  (forall c, snd (func c) = S c) ->
  forall k i s, advance func demo_wait d i k s = (k + s)%nat.
Proof.
  intros Hcount. induction k as [| k IH]; intros i s; [reflexivity |].
  cbn [advance]. rewrite IH. unfold demo_wait. rewrite Hcount. lia.
Qed.

(** C6, as the specification words it, fails in four ways, each of them
    after a first failed call: a negative initial delay is refused by
    [time.sleep] with [ValueError]; one of ten thousand million seconds is
    refused with [OverflowError]; an operation without a [__name__] makes
    the warning raise [AttributeError]; and with an initial delay of zero,
    which [time.sleep] accepts, the delay of index 1024 cannot be
    computed. *)
Lemma backoff_spec_fails_when_retry_cannot_wait :
  ~ backoff_spec demo_flaky (Some "operation") demo_wait 3 10 (-1) 0%nat /\
  ~ backoff_spec demo_flaky (Some "operation") demo_wait 3 10 (inject_Z (10 ^ 10)) 0%nat /\
  ~ backoff_spec demo_flaky None demo_wait 3 10 1 0%nat /\
  ~ backoff_spec demo_stubborn (Some "operation") demo_wait 1026 1026 0 0%nat.
Proof.
  assert (Hflaky : forall d j, (j < 3 - 1)%nat ->
            fails_transiently demo_flaky (state_before demo_flaky demo_wait d j 0%nat)).
  { intros d j Hj. exists (RequestException ConnectionError).
    destruct j as [| [| j]]; [split; reflexivity | split; reflexivity | lia]. }
  split; [| split; [| split]]; intros Hspec.
  - destruct (Hspec ltac:(lia) ltac:(lia) (Hflaky _) 2%nat eq_refl) as [Hr _].
    vm_compute in Hr. discriminate.
  - destruct (Hspec ltac:(lia) ltac:(lia) (Hflaky _) 2%nat eq_refl) as [Hr _].
    vm_compute in Hr. discriminate.
  - destruct (Hspec ltac:(lia) ltac:(lia) (Hflaky _) 2%nat eq_refl) as [Hr _].
    vm_compute in Hr. discriminate.
  - assert (Hfails : forall j, (j < 1026 - 1)%nat ->
              fails_transiently demo_stubborn
                (state_before demo_stubborn demo_wait 0 j 0%nat)).
    { intros j Hj. exists (RequestException ConnectionError).
      unfold state_before. rewrite advance_counts by reflexivity.
      unfold demo_stubborn. cbn [fst].
      rewrite (proj2 (Nat.ltb_lt (j + 0) 1025) ltac:(lia)). split; reflexivity. }
    assert (Hok : fst (demo_stubborn (state_before demo_stubborn demo_wait 0 (1026 - 1) 0%nat))
                  = Ok 1025%nat).
    { unfold state_before. rewrite advance_counts by reflexivity. reflexivity. }
    destruct (Hspec ltac:(lia) ltac:(lia) Hfails 1025%nat Hok) as [Hr _].
    vm_compute in Hr. discriminate.
Qed.

Example negative_delay_refused :
  demo_call_with_retries demo_flaky 10 (-1) 0%nat
  = mkOutcome (Raise ValueError) 1%nat
      [Called; Warned "operation" (RequestException ConnectionError) (-1)].
Proof. reflexivity. Qed.

Example long_delay_refused :
  demo_call_with_retries demo_flaky 10 (inject_Z (10 ^ 10)) 0%nat
  = mkOutcome (Raise OverflowError) 1%nat
      [Called; Warned "operation" (RequestException ConnectionError) (inject_Z (10 ^ 10))].
Proof. vm_compute. reflexivity. Qed.

Example nameless_operation_not_retried :
  call_with_retries demo_flaky None demo_wait 10 1 0%nat
  = mkOutcome (Raise AttributeError) 1%nat [Called].
Proof. reflexivity. Qed.

Example delay_of_index_1024_not_computed :
  returned (demo_call_with_retries demo_stubborn 1026 0 0%nat) = Raise OverflowError /\
  n_calls (trace (demo_call_with_retries demo_stubborn 1026 0 0%nat)) = 1025%nat /\
  List.length (sleeps (trace (demo_call_with_retries demo_stubborn 1026 0 0%nat))) = 1024%nat.
Proof. vm_compute. repeat split. Qed.

(** C6 (amended) on the instance: two failed connections, then success,
    ten attempts allowed. *)
Lemma transient_failures_retried_with_backoff_witness :
  returned (demo_call_with_retries demo_flaky 10 1 0%nat) = Ok (Some 2%nat) /\
  n_calls (trace (demo_call_with_retries demo_flaky 10 1 0%nat)) = 3%nat /\
  List.length (sleeps (trace (demo_call_with_retries demo_flaky 10 1 0%nat))) = 2%nat /\
  sleeps (trace (demo_call_with_retries demo_flaky 10 1 0%nat))
  = map (fun i => (1 * inject_Z (2 ^ Z.of_nat i))%Q) (seq 0 2).
Proof.
  apply (transient_failures_retried_with_backoff demo_flaky (Some "operation") demo_wait
           10 1 3 "operation" 0%nat 2%nat).
  - lia.
  - lia.
  - reflexivity.
  - intros i Hi. destruct i as [| [| i]]; [reflexivity | reflexivity | lia].
  - intros j Hj. exists (RequestException ConnectionError).
    destruct j as [| [| j]]; [split; reflexivity | split; reflexivity | lia].
  - reflexivity.
Defined.

(** C7, as the specification words it, fails in five ways: when no attempt
    is allowed no failure is raised, the call returns [None]; and with two
    attempts or more allowed, a negative initial delay, one of ten thousand
    million seconds, an operation without a [__name__], or the delay of
    index 1024 end the run with another exception than the operation's,
    before the attempts are exhausted. *)
Lemma exhaustion_spec_fails_short_of_last_attempt :
  ~ exhaustion_spec demo_down (Some "operation") demo_wait 0 1 0%nat /\
  ~ exhaustion_spec demo_down (Some "operation") demo_wait 2 (-1) 0%nat /\
  ~ exhaustion_spec demo_down (Some "operation") demo_wait 2 (inject_Z (10 ^ 10)) 0%nat /\
  ~ exhaustion_spec demo_down None demo_wait 2 1 0%nat /\
  ~ exhaustion_spec demo_down (Some "operation") demo_wait 1026 0 0%nat.
Proof.
  assert (Hdown : forall d j,
            fails_transiently demo_down (state_before demo_down demo_wait d j 0%nat)).
  { intros d j. exists (RequestException Timeout). split; reflexivity. }
  split; [| split; [| split; [| split]]]; intros Hspec.
  - destruct (Hspec (Hdown _)) as [_ [e Hraised]]. discriminate.
  - destruct (Hspec (Hdown _)) as [Hcalls _]. discriminate.
  - destruct (Hspec (Hdown _)) as [Hcalls _]. vm_compute in Hcalls. discriminate.
  - destruct (Hspec (Hdown _)) as [Hcalls _]. discriminate.
  - destruct (Hspec (Hdown _)) as [Hcalls _]. vm_compute in Hcalls. 
    apply (f_equal Z.of_nat) in Hcalls. vm_compute in Hcalls. discriminate.
Qed.

Example two_attempts_negative_delay :
  demo_call_with_retries demo_down 2 (-1) 0%nat
  = mkOutcome (Raise ValueError) 1%nat
      [Called; Warned "operation" (RequestException Timeout) (-1)].
Proof. reflexivity. Qed.

Example two_attempts_long_delay :
  returned (demo_call_with_retries demo_down 2 (inject_Z (10 ^ 10)) 0%nat)
  = Raise OverflowError /\
  n_calls (trace (demo_call_with_retries demo_down 2 (inject_Z (10 ^ 10)) 0%nat)) = 1%nat.
Proof. vm_compute. split; reflexivity. Qed.

Example two_attempts_nameless_operation :
  call_with_retries demo_down None demo_wait 2 1 0%nat
  = mkOutcome (Raise AttributeError) 1%nat [Called].
Proof. reflexivity. Qed.

(** C7 (amended) on the instance, three attempts allowed. *)
Lemma attempts_exhausted_last_failure_raised_witness :
  (exists e, fst (demo_down (state_before demo_down demo_wait 1 2 0%nat)) = Raise e /\
             returned (demo_call_with_retries demo_down 3 1 0%nat) = Raise e) /\
  n_calls (trace (demo_call_with_retries demo_down 3 1 0%nat)) = 3%nat /\
  sleeps (trace (demo_call_with_retries demo_down 3 1 0%nat)) = backoffs 1 0 2 /\
  exists tr, trace (demo_call_with_retries demo_down 3 1 0%nat) = (tr ++ [Called])%list.
Proof.
  apply (attempts_exhausted_last_failure_raised demo_down (Some "operation") demo_wait
           3 1 3 "operation" 0%nat).
  - lia.
  - reflexivity.
  - reflexivity.
  - intros i Hi. destruct i as [| [| i]]; [reflexivity | reflexivity | lia].
  - intros j _. exists (RequestException Timeout). split; reflexivity.
Defined.

(** C8, as the specification words it, fails: an answer with status 200
    that names a key and a coordinator but carries no token makes the join
    raise after the key and the coordinator have been replaced, the token
    that was held staying in place. *)
Lemma join_not_atomic :
  ~ atomic_join_spec string demo_from_bytes demo_to_bytes demo_fromisoformat
      demo_datetime_str (list (result Response)) demo_put
      (demo_joined, [Ok demo_truncated]).
Proof.
  unfold atomic_join_spec. vm_compute. intros [Hkey _]. discriminate.
Qed.

Example join_leaves_new_key_with_old_token :
  demo_join (demo_joined, [Ok demo_truncated])
  = (Raise (KeyError "hivemind_access"),
     (mkAuthorizer string "org" "model" "hf_token" "local" (Some demo_token)
        (Some "rotated") (PyStr "10.0.0.2") (PyInt 31338), [])).
Proof. reflexivity. Qed.

(** C9 on the instance. *)
Lemma unparsable_expiration_raises_or_invalid_witness :
  demo_fromisoformat (expiration_time demo_unparsable_token) = None /\
  demo_needs_refreshing demo_joined demo_now demo_unparsable_token = Raise ValueError /\
  demo_is_token_valid demo_joined demo_now demo_unparsable_token = Ok false.
Proof.
  split; [reflexivity |].
  destruct (unparsable_expiration_raises_or_invalid string demo_verify
              demo_fromisoformat demo_joined demo_now demo_unparsable_token eq_refl)
    as (Hraises & _ & Hinvalid).
  split; [exact Hraises | exact (Hinvalid "authority" eq_refl)].
Defined.

(** C10, as the specification words it, fails: a join attempt that raises
    while it reads the answer has stored the authority key of that answer
    already; the authorizer has completed no join, and [is_token_valid]
    returns [False] for a token instead of raising. *)
Lemma unjoined_validation_spec_fails_after_failed_join :
  ~ unjoined_validation_spec string demo_from_bytes demo_to_bytes demo_fromisoformat
      demo_datetime_str (list (result Response)) demo_put demo_verify
      (fst (snd (demo_join (demo_fresh, [Ok demo_truncated])))) demo_now demo_token.
Proof.
  intros Hspec. destruct Hspec as [e He].
  - apply (never_joined_failed string demo_from_bytes demo_to_bytes demo_fromisoformat
             demo_datetime_str (list (result Response)) demo_put
             demo_fresh [Ok demo_truncated] (KeyError "hivemind_access")
             (snd (demo_join (demo_fresh, [Ok demo_truncated])))).
    + apply never_joined_init.
    + reflexivity.
  - vm_compute in He. discriminate.
Qed.

Example failed_join_leaves_a_key :
  fst (demo_join (demo_fresh, [Ok demo_truncated])) = Raise (KeyError "hivemind_access") /\
  _authority_public_key string (fst (snd (demo_join (demo_fresh, [Ok demo_truncated]))))
  = Some "rotated" /\
  _local_access_token string (fst (snd (demo_join (demo_fresh, [Ok demo_truncated]))))
  = None /\
  demo_is_token_valid (fst (snd (demo_join (demo_fresh, [Ok demo_truncated]))))
    demo_now demo_token = Ok false.
Proof. repeat split. Qed.

(** C10 on the instance: a freshly built authorizer. *)
Lemma is_token_valid_without_key_raises_witness :
  _authority_public_key string demo_fresh = None /\
  demo_is_token_valid demo_fresh demo_now demo_token = Raise AttributeError.
Proof.
  split; [reflexivity |].
  exact (proj1 (is_token_valid_without_key_raises string demo_verify
                  demo_fromisoformat demo_fresh demo_now demo_token eq_refl)).
Defined.

(** * Further properties of the code *)

(** ** The retry loop, for every operation *)

Section RetryShape.
Context {State T : Type}.
Variable func : State -> result T * State.
Variable func_name : option string.
Variable time_sleep : Q -> State -> State.
Variable n_retries : Z.
Variable initial_delay : Q.

Local Abbreviation loop := (retry_loop func func_name time_sleep n_retries initial_delay).
Local Abbreviation cwr := (call_with_retries func func_name time_sleep n_retries initial_delay).

Lemma range_empty (n : Z) : n <= 0 -> range n = [].
Proof.
  intros Hn. unfold range. now replace (Z.to_nat n) with 0%nat by lia.
Qed.

(** Over the indices [i .. n_retries - 1], the loop makes [k + 1] calls and
    sleeps [k] times in between, for the delays of the indices
    [i .. i + k - 1]. *)
Lemma retry_loop_shape (m : nat) : forall (i : nat) (s : State),
  (i + S m = Z.to_nat n_retries)%nat ->
  exists k, (k <= m)%nat /\
    n_calls (trace (loop (map Z.of_nat (seq i (S m))) s)) = S k /\
    sleeps (trace (loop (map Z.of_nat (seq i (S m))) s)) = backoffs initial_delay i k.
Proof.
  induction m as [| m IH]; intros i s Hlen.
  - exists 0%nat. split; [lia |]. simpl.
    destruct (func s) as [[v | e] s1]; [now split |].
    destruct (isinstance_NonRetriableError e); [now split |].
    destruct (isinstance_Exception e); [| now split].
    destruct (Z.eqb_spec (Z.of_nat i) (n_retries - 1)) as [_ | Hne];
      [now split | lia].
  - change (map Z.of_nat (seq i (S (S m))))
      with (Z.of_nat i :: map Z.of_nat (seq (S i) (S m))).
    cbn [retry_loop].
    destruct (func s) as [[v | e] s1]; [exists 0%nat; repeat split; lia |].
    destruct (isinstance_NonRetriableError e); [exists 0%nat; repeat split; lia |].
    destruct (isinstance_Exception e); [| exists 0%nat; repeat split; lia].
    destruct (Z.of_nat i =? n_retries - 1)%Z; [exists 0%nat; repeat split; lia |].
    destruct (power_overflows (Z.of_nat i)); [exists 0%nat; repeat split; lia |].
    destruct func_name as [name |]; [| exists 0%nat; repeat split; lia].
    destruct (sleep_refusal (backoff initial_delay (Z.of_nat i)));
      [exists 0%nat; repeat split; lia |].
    destruct (IH (S i) (time_sleep (backoff initial_delay (Z.of_nat i)) s1)
                ltac:(lia)) as (k & Hk & Hcalls & Hsleeps).
    exists (S k). split; [lia |].
    cbn [after trace]. rewrite n_calls_app, sleeps_app, Hcalls, Hsleeps.
    split; reflexivity.
Qed.

(** X1: when no attempt is allowed ([n_retries <= 0]), [call_with_retries]
    does not call the operation at all: it returns [None], leaves the state
    as it was and neither warns nor sleeps. *)
Theorem no_attempt_returns_none (s : State) :
  n_retries <= 0 ->
  call_with_retries func func_name time_sleep n_retries initial_delay s
  = mkOutcome (Ok None) s [].
Proof.
  intros Hn. unfold call_with_retries. now rewrite (range_empty _ Hn).
Qed.

(** X2: whatever the operation does, [call_with_retries] calls it at most
    [n_retries] times, and it sleeps between calls only: the sleeps are
    [initial_delay * 2^i] for [i = 0 .. k - 1], in this order, where [k + 1]
    is the number of calls made (no call and no sleep when no attempt is
    allowed). *)
Theorem calls_bounded_sleeps_between (s : State) :
  (n_calls (trace (cwr s)) <= Z.to_nat n_retries)%nat /\
  exists k,
    sleeps (trace (cwr s))
    = map (fun i => (initial_delay * inject_Z (2 ^ Z.of_nat i))%Q) (seq 0 k) /\
    (n_calls (trace (cwr s)) = S k \/
     (n_calls (trace (cwr s)) = 0%nat /\ k = 0%nat /\ n_retries <= 0)).
Proof.
  destruct (Z.le_gt_cases n_retries 0) as [Hn | Hn].
  - unfold call_with_retries. rewrite (range_empty _ Hn).
    cbn [retry_loop trace]. change (n_calls []) with 0%nat.
    split; [lia |]. exists 0%nat. split; [reflexivity |]. right. now repeat split.
  - destruct (retry_loop_shape (Z.to_nat n_retries - 1) 0 s ltac:(lia))
      as (k & Hk & Hcalls & Hsleeps).
    assert (Hrange : range n_retries
                     = map Z.of_nat (seq 0 (S (Z.to_nat n_retries - 1)))).
    { unfold range. f_equal. f_equal. lia. }
    unfold call_with_retries. rewrite Hrange, Hcalls, Hsleeps.
    split; [lia |]. exists k. split; [reflexivity | now left].
Qed.

(** X3: an exception of the first call that is not an [Exception]
    ([KeyboardInterrupt], [SystemExit]) is not caught: it is raised at once,
    after this one call, without a warning or a sleep. *)
Theorem interrupt_not_retried (s : State) (e : exn) :
  1 <= n_retries ->
  fst (func s) = Raise e ->
  isinstance_Exception e = false ->
  cwr s = mkOutcome (Raise e) (snd (func s)) [Called].
Proof.
  intros Hn He Hexc. unfold call_with_retries.
  rewrite (range_cons _ Hn). simpl.
  destruct (func s) as [r s1]. simpl in He. subst r. simpl.
  rewrite Hexc. now destruct (isinstance_NonRetriableError e).
Qed.


(** A property of the state that every call of the operation and every
    sleep keep holds of the final state. *)
Lemma retry_loop_invariant (P : State -> Prop) :
  (forall s, P s -> P (snd (func s))) ->
  (forall d s, P s -> P (time_sleep d s)) ->
  forall indices s, P s -> P (final (loop indices s)).
Proof.
  intros Hfunc Hsleep. induction indices as [| i rest IH]; intros s Hs.
  - exact Hs.
  - simpl. specialize (Hfunc s Hs). destruct (func s) as [[v | e] s1]; [exact Hfunc |].
    simpl in Hfunc.
    destruct (isinstance_NonRetriableError e); [exact Hfunc |].
    destruct (isinstance_Exception e); [| exact Hfunc].
    destruct (i =? n_retries - 1)%Z; [exact Hfunc |].
    destruct (power_overflows i); [exact Hfunc |].
    destruct func_name as [name |]; [| exact Hfunc].
    destruct (sleep_refusal (backoff initial_delay i)); [exact Hfunc |].
    cbn [after final]. apply IH, Hsleep, Hfunc.
Qed.

(** A property of the state that every failing call of the operation and
    every sleep keep holds of the final state of a run that raises. *)
Lemma retry_loop_failure_invariant (P : State -> Prop) :
  (forall s e, P s -> fst (func s) = Raise e -> P (snd (func s))) ->
  (forall d s, P s -> P (time_sleep d s)) ->
  forall indices s e,
    P s -> returned (loop indices s) = Raise e -> P (final (loop indices s)).
Proof.
  intros Hfunc Hsleep. induction indices as [| i rest IH]; intros s e0 Hs Hr.
  - exact Hs.
  - simpl in *. specialize (Hfunc s).
    destruct (func s) as [[v | e] s1]; [discriminate |].
    specialize (Hfunc e Hs eq_refl). simpl in Hfunc.
    destruct (isinstance_NonRetriableError e); [exact Hfunc |].
    destruct (isinstance_Exception e); [| exact Hfunc].
    destruct (i =? n_retries - 1)%Z; [exact Hfunc |].
    destruct (power_overflows i); [exact Hfunc |].
    destruct func_name as [name |]; [| exact Hfunc].
    destruct (sleep_refusal (backoff initial_delay i)); [exact Hfunc |].
    cbn [after final returned] in *. apply (IH _ e0); [apply Hsleep, Hfunc | exact Hr].
Qed.

(** A failure raised by a run of an operation that has a [__name__], over
    indices whose delays are computed and accepted, is the failure of a call
    of the operation. *)
Lemma retry_loop_raises_failure_of_call (name : string) :
  func_name = Some name ->
  forall indices s e,
    forallb (delay_accepted initial_delay) indices = true ->
    returned (loop indices s) = Raise e ->
    exists s', fst (func s') = Raise e.
Proof.
  intros Hname. induction indices as [| i rest IH]; intros s e0 Hd Hr.
  - discriminate.
  - cbn [forallb] in Hd. apply andb_true_iff in Hd as [Hi Hrest].
    apply delay_accepted_sleeps in Hi as [Hpow Hsleep].
    simpl in Hr. destruct (func s) as [[v | e] s1] eqn:Hf; [discriminate |].
    assert (Hhere : returned (mkOutcome (State:=State) (T:=option T) (Raise e) s1 [Called])
                    = Raise e0 -> exists s', fst (func s') = Raise e0).
    { simpl. intros Heq. injection Heq as <-. exists s. now rewrite Hf. }
    destruct (isinstance_NonRetriableError e); [exact (Hhere Hr) |].
    destruct (isinstance_Exception e); [| exact (Hhere Hr)].
    destruct (i =? n_retries - 1)%Z; [exact (Hhere Hr) |].
    rewrite Hpow, Hname, Hsleep in Hr.
    cbn [after returned] in Hr. rewrite <- Hname in Hr.
    eapply IH; [exact Hrest | exact Hr].
Qed.

End RetryShape.

(** ** The two checks of a token, one against the other and in time *)

Section TokenMore.
Variable RSAPublicKey : Type.
Variable verify : RSAPublicKey -> bytes -> bytes -> bool.
Variable fromisoformat : str -> option datetime.

Local Abbreviation Authorizer := (HuggingFaceAuthorizer RSAPublicKey).
Local Abbreviation valid := (is_token_valid RSAPublicKey verify fromisoformat).
Local Abbreviation needs_refreshing := (does_token_need_refreshing RSAPublicKey fromisoformat).

(** What [does_token_need_refreshing] gives, by the expiration time. *)
Lemma does_token_need_refreshing_cases (self : Authorizer) (now : Z) (t : AccessToken) :
  needs_refreshing self now t
  = match fromisoformat (expiration_time t) with
    | None => Raise ValueError
    | Some expiration =>
        match tzinfo expiration with
        | None => Ok (ticks expiration <? now + _MAX_LATENCY)%Z
        | Some _ => Raise TypeError
        end
    end.
Proof.
  unfold does_token_need_refreshing.
  destruct (fromisoformat (expiration_time t)) as [[x [offset |]] |]; reflexivity.
Qed.

(** X5: a token that [is_token_valid] accepts at some time is accepted at
    every earlier time too; so a token rejected now is rejected for good. *)
Theorem is_token_valid_earlier (self : Authorizer) (now earlier : Z) (t : AccessToken) :
  (earlier <= now)%Z ->
  valid self now t = Ok true ->
  valid self earlier t = Ok true.
Proof.
  intros Hle Hvalid.
  destruct (_authority_public_key _ self) as [key |] eqn:Hkey.
  - apply (is_token_valid_true _ verify fromisoformat self key now t Hkey) in Hvalid.
    apply (is_token_valid_true _ verify fromisoformat self key earlier t Hkey).
    destruct Hvalid as (Hv & d & Hd & Htz & Hnot).
    split; [exact Hv |]. exists d. repeat split; try assumption. lia.
  - unfold is_token_valid in Hvalid. rewrite Hkey in Hvalid. discriminate.
Qed.

(** X6: a token whose signature verifies under the held key and for which
    [does_token_need_refreshing] returns [False] is accepted by
    [is_token_valid] now and for the minute of [_MAX_LATENCY] that
    follows. *)
Theorem fresh_token_valid_for_a_minute (self : Authorizer) (key : RSAPublicKey)
    (now later : Z) (t : AccessToken) :
  _authority_public_key _ self = Some key ->
  verify key (_token_to_bytes t) (signature t) = true ->
  needs_refreshing self now t = Ok false ->
  (later <= now + 60000000)%Z ->
  valid self later t = Ok true.
Proof.
  intros Hkey Hv Hfresh Hlater.
  apply (is_token_valid_true _ verify fromisoformat self key later t Hkey).
  split; [exact Hv |].
  rewrite does_token_need_refreshing_cases in Hfresh.
  destruct (fromisoformat (expiration_time t)) as [[x [offset |]] |];
    simpl in Hfresh; try discriminate.
  exists (mkDatetime x None). repeat split. simpl.
  injection Hfresh as Hlt. apply Z.ltb_ge in Hlt.
  change _MAX_LATENCY with 60000000%Z in Hlt. lia.
Qed.

(** X7: [does_token_need_refreshing] returns a boolean, and raises nothing,
    for every token that [is_token_valid] accepts; and once such a token
    has expired, or is within a minute of it, that boolean is [True]. *)
Theorem valid_token_refresh_check_returns (self : Authorizer) (now : Z) (t : AccessToken) :
  valid self now t = Ok true ->
  (forall clock, exists b, needs_refreshing self clock t = Ok b) /\
  (forall clock, valid self clock t = Ok false ->
                 needs_refreshing self clock t = Ok true).
Proof.
  intros Hvalid.
  destruct (_authority_public_key _ self) as [key |] eqn:Hkey.
  - pose proof Hvalid as Hall.
    apply (is_token_valid_true _ verify fromisoformat self key now t Hkey) in Hall.
    destruct Hall as (Hv & d & Hd & Htz & Hnot).
    split.
    + intros clock. rewrite does_token_need_refreshing_cases, Hd, Htz. now eexists.
    + intros clock Hinvalid. rewrite does_token_need_refreshing_cases, Hd, Htz.
      f_equal. apply Z.ltb_lt.
      destruct (Z.lt_ge_cases (ticks d) clock) as [Hlt | Hge].
      * change _MAX_LATENCY with 60000000%Z. lia.
      * exfalso.
        assert (Hok : valid self clock t = Ok true).
        { apply (is_token_valid_true _ verify fromisoformat self key clock t Hkey).
          split; [exact Hv |]. exists d. repeat split; try assumption. lia. }
        congruence.
  - unfold is_token_valid in Hvalid. rewrite Hkey in Hvalid. discriminate.
Qed.

End TokenMore.

(** ** The signed payload *)

Lemma append_assoc (a b c : string) : ((a ++ b) ++ c)%string = (a ++ (b ++ c))%string.
Proof. induction a as [| x a IH]; simpl; [reflexivity | now rewrite IH]. Qed.

Lemma append_empty_r (a : string) : (a ++ "")%string = a.
Proof. induction a as [| x a IH]; simpl; [reflexivity | now rewrite IH]. Qed.

Lemma length_append (a b : string) :
  String.length (a ++ b) = (String.length a + String.length b)%nat.
Proof. induction a as [| x a IH]; simpl; [reflexivity | now rewrite IH]. Qed.

Lemma append_cancel_l (a b c : string) : (a ++ b)%string = (a ++ c)%string -> b = c.
Proof.
  induction a as [| x a IH]; simpl; intros H; [exact H |].
  injection H as H. exact (IH H).
Qed.

Lemma append_cancel_r (c : string) : forall a b : string,
  (a ++ c)%string = (b ++ c)%string -> a = b.
Proof.
  induction a as [| x a IH]; intros [| y b] H; simpl in H.
  - reflexivity.
  - exfalso. apply (f_equal String.length) in H. simpl in H.
    rewrite length_append in H. lia.
  - exfalso. apply (f_equal String.length) in H. simpl in H.
    rewrite length_append in H. lia.
  - injection H as -> H. f_equal. exact (IH _ H).
Qed.

Lemma concat_empty_cons (x : string) (xs : list string) :
  String.concat "" (x :: xs) = (x ++ String.concat "" xs)%string.
Proof.
  destruct xs as [| y ys]; simpl; [now rewrite append_empty_r | reflexivity].
Qed.

(** The quote that [bytes_repr] picks is one of the two. *)
Lemma repr_quote_cases (b : bytes) :
  repr_quote b = "'"%char \/ repr_quote b = "034"%char.
Proof.
  unfold repr_quote.
  destruct (contains "'" b && negb (contains "034" b)); [now right | now left].
Qed.

(** One byte written, one byte read. *)
Lemma unrepr_byte (quote c : ascii) (rest : string) :
  quote = "'"%char \/ quote = "034"%char ->
  unrepr_body quote (repr_byte quote c ++ rest)
  = match unrepr_body quote rest with
    | Some tail => Some (String c tail)
    | None => None
    end.
Proof.
  intros [-> | ->];
    destruct c as [[] [] [] [] [] [] [] []]; reflexivity.
Qed.

Lemma unrepr_body_repr (quote : ascii) :
  quote = "'"%char \/ quote = "034"%char ->
  forall b : bytes,
    unrepr_body quote
      (String.concat "" (map (repr_byte quote) (list_ascii_of_string b))
         ++ String quote EmptyString)
    = Some b.
Proof.
  intros Hq. induction b as [| c b IH].
  - simpl. destruct Hq as [-> | ->]; reflexivity.
  - cbn [list_ascii_of_string map]. rewrite concat_empty_cons, append_assoc.
    rewrite (unrepr_byte quote c _ Hq), IH. reflexivity.
Qed.

Lemma unrepr_bytes_repr (b : bytes) : unrepr (bytes_repr b) = Some b.
Proof.
  unfold bytes_repr, unrepr.
  destruct (repr_quote_cases b) as [Hq | Hq]; rewrite Hq; simpl;
    apply unrepr_body_repr; [now left | now right].
Qed.

Lemma bytes_repr_injective (a b : bytes) : bytes_repr a = bytes_repr b -> a = b.
Proof.
  intros H. apply (f_equal unrepr) in H.
  rewrite !unrepr_bytes_repr in H. now injection H.
Qed.

(** X8: the payload binds the public key: tokens of the same user name and
    expiration time that are signed as the same bytes have the same public
    key, byte for byte ([repr] of a [bytes] object loses nothing). *)
Theorem payload_binds_public_key (t1 t2 : AccessToken) :
  _token_to_bytes t1 = _token_to_bytes t2 ->
  username t1 = username t2 ->
  expiration_time t1 = expiration_time t2 ->
  public_key t1 = public_key t2.
Proof.
  unfold _token_to_bytes. intros Hbytes Hname Hexp.
  rewrite Hname, Hexp in Hbytes.
  apply append_cancel_l in Hbytes. apply append_cancel_l in Hbytes.
  change (" " ++ expiration_time t2)%string
    with (String " " (expiration_time t2)) in Hbytes.
  apply bytes_repr_injective.
  exact (append_cancel_r _ _ _ Hbytes).
Qed.

(** X9: the payload does not tell where the user name ends: the three
    fields are joined by single spaces and nothing is escaped, so a token
    for user [u] with key [p] and a token for the longer user name
    [u b'p'] with key [p'] are signed as the same bytes, and a signature of
    one verifies for the other. *)
Theorem payload_is_ambiguous (u e : str) (p p' sig sig' : bytes) :
  let short := mkAccessToken u p (bytes_repr p' ++ " " ++ e) sig in
  let long := mkAccessToken (u ++ " " ++ bytes_repr p) p' e sig' in
  _token_to_bytes short = _token_to_bytes long /\
  username short <> username long.
Proof.
  cbv zeta. split.
  - unfold _token_to_bytes. cbn [username public_key expiration_time].
    now rewrite !append_assoc.
  - cbn [username]. intros H. apply (f_equal String.length) in H.
    rewrite length_append in H. simpl in H. lia.
Qed.

(** ** What [is_token_valid] checks the signature of *)

(** Tokens signed as the same bytes that agree on two of the three fields
    agree on the third. *)
Lemma payload_binds_each_field (t t' : AccessToken) :
  _token_to_bytes t' = _token_to_bytes t ->
  (public_key t' = public_key t -> expiration_time t' = expiration_time t ->
   username t' = username t) /\
  (username t' = username t -> expiration_time t' = expiration_time t ->
   public_key t' = public_key t) /\
  (username t' = username t -> public_key t' = public_key t ->
   expiration_time t' = expiration_time t).
Proof.
  unfold _token_to_bytes. intros Hbytes. split; [| split].
  - intros Hkey Hexp. rewrite Hkey, Hexp in Hbytes.
    exact (append_cancel_r _ _ _ Hbytes).
  - intros Hname Hexp. rewrite Hname, Hexp in Hbytes.
    apply append_cancel_l in Hbytes. apply append_cancel_l in Hbytes.
    apply bytes_repr_injective.
    exact (append_cancel_r _ _ _ Hbytes).
  - intros Hname Hkey. rewrite Hname, Hkey in Hbytes.
    apply append_cancel_l in Hbytes. apply append_cancel_l in Hbytes.
    apply append_cancel_l in Hbytes. now apply append_cancel_l in Hbytes.
Qed.

Section SignedPayload.
Variable RSAPublicKey : Type.
Variable verify : RSAPublicKey -> bytes -> bytes -> bool.
Variable fromisoformat : str -> option datetime.

Local Abbreviation Authorizer := (HuggingFaceAuthorizer RSAPublicKey).
Local Abbreviation valid := (is_token_valid RSAPublicKey verify fromisoformat).

(** C2: with an authority key held, [is_token_valid] returns a boolean for
    every token, [true] exactly when the signature verifies under that key
    over the payload, the expiration time parses, the parsed timestamp has
    no [tzinfo] and it is not before the clock.  The payload is what
    [_token_to_bytes] makes of the token: its user name, the [repr] of its
    public key and its expiration time, in this order and joined by single
    spaces; and it covers each of the three fields: tokens with the same
    payload that agree on two of them agree on the third.  So a signature
    that does not verify gives [False] whatever the expiration, and an
    expiration equal to the clock still gives [True]. *)
Theorem is_token_valid_iff (self : Authorizer) (key : RSAPublicKey) (now : Z)
    (t : AccessToken) :
  _authority_public_key _ self = Some key ->
  _token_to_bytes t
  = (username t ++ " " ++ bytes_repr (public_key t) ++ " " ++ expiration_time t)%string /\
  (forall t',
     _token_to_bytes t' = _token_to_bytes t ->
     (public_key t' = public_key t -> expiration_time t' = expiration_time t ->
      username t' = username t) /\
     (username t' = username t -> expiration_time t' = expiration_time t ->
      public_key t' = public_key t) /\
     (username t' = username t -> public_key t' = public_key t ->
      expiration_time t' = expiration_time t)) /\
  (exists b, valid self now t = Ok b /\
     (b = true <->
      verify key
        (username t ++ " " ++ bytes_repr (public_key t) ++ " " ++ expiration_time t)
        (signature t) = true /\
      exists expiration,
        fromisoformat (expiration_time t) = Some expiration /\
        tzinfo expiration = None /\
        ~ (ticks expiration < now)%Z)) /\
  (verify key
     (username t ++ " " ++ bytes_repr (public_key t) ++ " " ++ expiration_time t)
     (signature t) = false ->
   valid self now t = Ok false) /\
  (verify key
     (username t ++ " " ++ bytes_repr (public_key t) ++ " " ++ expiration_time t)
     (signature t) = true ->
   fromisoformat (expiration_time t) = Some (mkDatetime now None) ->
   valid self now t = Ok true).
Proof.
  intros Hkey.
  change (username t ++ " " ++ bytes_repr (public_key t) ++ " " ++ expiration_time t)%string
    with (_token_to_bytes t).
  split; [reflexivity |]. split; [exact (payload_binds_each_field t) |].
  split; [| split].
  - destruct (is_token_valid_returns _ verify fromisoformat self key now t Hkey) as [b Hb].
    exists b. split; [exact Hb |].
    rewrite <- (is_token_valid_true _ verify fromisoformat self key now t Hkey), Hb.
    split; congruence.
  - intros Hv. unfold is_token_valid. now rewrite Hkey, Hv.
  - intros Hv Hd. apply (is_token_valid_true _ verify fromisoformat self key now t Hkey).
    split; [exact Hv |]. exists (mkDatetime now None).
    split; [exact Hd |]. split; [reflexivity | simpl; lia].
Qed.

End SignedPayload.

(** C2 on the instance: the held token is signed as the bytes of its three
    fields, and it is valid one hour before it expires. *)
Lemma is_token_valid_iff_witness :
  _authority_public_key string demo_joined = Some "authority" /\
  _token_to_bytes demo_token = "alice b'peer-key' 2030-01-01 00:00:00" /\
  is_token_valid string demo_verify demo_fromisoformat demo_joined demo_now demo_token
  = Ok true.
Proof.
  split; [reflexivity |].
  destruct (is_token_valid_iff string demo_verify demo_fromisoformat
              demo_joined "authority" demo_now demo_token eq_refl)
    as (Hpayload & _ & (b & Hb & Hiff) & _ & _).
  split; [rewrite Hpayload; reflexivity |].
  rewrite Hb. f_equal. apply Hiff.
  split; [reflexivity |]. exists (mkDatetime demo_expiry None).
  split; [reflexivity |]. split; [reflexivity |]. vm_compute. discriminate.
Defined.

Example signature_of_another_key_is_refused :
  is_token_valid string demo_verify demo_fromisoformat demo_joined demo_now
    (mkAccessToken "alice" "other-key" "2030-01-01 00:00:00"
       "authority:alice b'peer-key' 2030-01-01 00:00:00")
  = Ok false.
Proof. reflexivity. Qed.

(** ** Joining under the retry policy *)

Section JoinMore.
Variable RSAPublicKey : Type.
Variable from_bytes : bytes -> result RSAPublicKey.
Variable to_bytes : RSAPublicKey -> bytes.
Variable verify : RSAPublicKey -> bytes -> bytes -> bool.
Variable fromisoformat : str -> option datetime.
Variable datetime_str : datetime -> str.
Variable World : Type.
Variable requests_put : Request -> World -> result Response * World.
Variable sleep_world : Q -> World -> World.

Local Abbreviation Authorizer := (HuggingFaceAuthorizer RSAPublicKey).
Local Abbreviation body :=
  (join_body RSAPublicKey from_bytes to_bytes fromisoformat datetime_str World requests_put).
Local Abbreviation join :=
  (_join_experiment RSAPublicKey from_bytes to_bytes fromisoformat datetime_str World
     requests_put).
Local Abbreviation request := (join_request RSAPublicKey to_bytes).
Local Abbreviation read_token := (read_access_token fromisoformat datetime_str).
Local Abbreviation sleep := (time_sleep RSAPublicKey World sleep_world).
Local Abbreviation join_with_retries :=
  (join_experiment RSAPublicKey from_bytes to_bytes fromisoformat datetime_str World
     requests_put sleep_world).
Local Abbreviation token :=
  (get_token RSAPublicKey from_bytes to_bytes fromisoformat datetime_str World
     requests_put sleep_world).
Local Abbreviation valid := (is_token_valid RSAPublicKey verify fromisoformat).
Local Abbreviation needs_refreshing := (does_token_need_refreshing RSAPublicKey fromisoformat).

Ltac open_body :=
  unfold join_body, bind, lift, get_self, update_self, put; cbn [fst snd].

Ltac innermost x :=
  lazymatch x with
  | context [match _ with Ok _ => _ | Raise _ => _ end] => fail
  | context [let (_, _) := _ in _] => fail
  | _ => idtac
  end.

Ltac next_case :=
  match goal with
  | |- context [let (_, _) := ?x in _] => innermost x; destruct x as [? ?] eqn:?
  | |- context [match ?x with Ok _ => _ | Raise _ => _ end] => innermost x; destruct x eqn:?
  end; cbn [fst snd].

(** [get_token] is [join_experiment] as far as the state and the events
    go. *)
Lemma get_token_run (st : Env RSAPublicKey World) :
  final (token st) = final (join_with_retries st) /\
  trace (token st) = trace (join_with_retries st) /\
  (forall e, returned (token st) = Raise e <-> returned (join_with_retries st) = Raise e).
Proof.
  unfold get_token. destruct (returned (join_with_retries st)) as [u | e0];
    cbn [returned final trace];
    (split; [reflexivity | split; [reflexivity | intros e]]).
  - split; discriminate.
  - split; intros H; injection H as ->; reflexivity.
Qed.

Lemma join_experiment_run (st : Env RSAPublicKey World) :
  final (join_with_retries st)
  = final (call_with_retries join (Some "_join_experiment") sleep 10 1 st) /\
  trace (join_with_retries st)
  = trace (call_with_retries join (Some "_join_experiment") sleep 10 1 st) /\
  (forall e, returned (join_with_retries st) = Raise e <->
             returned (call_with_retries join (Some "_join_experiment") sleep 10 1 st) = Raise e).
Proof.
  unfold join_experiment. cbn [final trace returned].
  destruct (returned (call_with_retries join (Some "_join_experiment") sleep 10 1 st));
    (split; [reflexivity | split; [reflexivity | intros e0]]).
  - split; discriminate.
  - split; intros H; injection H as ->; reflexivity.
Qed.

(** A join attempt never unsets the authority key and never changes the
    configuration; when it raises, the held token stays. *)
Lemma join_keeps (a : Authorizer) (w : World) :
  (_authority_public_key _ a <> None ->
   _authority_public_key _ (fst (snd (join (a, w)))) <> None) /\
  organization_name _ (fst (snd (join (a, w)))) = organization_name _ a /\
  model_name _ (fst (snd (join (a, w)))) = model_name _ a /\
  hf_user_access_token _ (fst (snd (join (a, w)))) = hf_user_access_token _ a /\
  local_public_key _ (fst (snd (join (a, w)))) = local_public_key _ a /\
  (forall e, fst (join (a, w)) = Raise e ->
     _local_access_token _ (fst (snd (join (a, w)))) = _local_access_token _ a).
Proof.
  rewrite join_state.
  assert (Hraise : forall e, fst (join (a, w)) = Raise e -> exists e', fst (body (a, w)) = Raise e').
  { intros e He. destruct (fst (body (a, w))) as [[] | e'] eqn:Hb; [| now exists e'].
    apply join_ok in Hb. congruence. }
  split.
  - open_body. repeat next_case; simpl; congruence.
  - pose proof (join_body_cases _ from_bytes to_bytes fromisoformat datetime_str
                  _ requests_put a w) as Hcases.
    destruct (body (a, w)) as [[u | e] [a' w']]; cbn [fst snd] in *.
    + destruct Hcases as (? & ? & ? & ? & ? & ? & H).
      destruct H as (_ & _ & _ & _ & _ & _ & _ & _ & _ & ->). cbn.
      repeat split. intros e He. destruct (Hraise e He) as [e' He']. discriminate.
    + destruct Hcases as (Htok & Horg & Hmodel & Htoken & Hkey).
      repeat split; try assumption. intros; assumption.
Qed.

(** A successful join attempt leaves a key and a token. *)
Lemma join_success (a : Authorizer) (w : World) (u : unit) :
  fst (join (a, w)) = Ok u ->
  _authority_public_key _ (fst (snd (join (a, w)))) <> None /\
  _local_access_token _ (fst (snd (join (a, w)))) <> None.
Proof.
  intros Hok. apply join_ok in Hok. rewrite join_state.
  pose proof (join_body_cases _ from_bytes to_bytes fromisoformat datetime_str
                _ requests_put a w) as Hcases.
  destruct (body (a, w)) as [[u' | e] [a' w']]; cbn [fst snd] in *; [| discriminate].
  destruct Hcases as (? & ? & ? & ? & ? & ? & H).
  destruct H as (_ & _ & _ & _ & _ & _ & _ & _ & _ & ->). cbn. split; discriminate.
Qed.

(** X10: one call of [get_token] makes at least one and at most ten join
    attempts, and between them it sleeps 1, 2, 4, ... seconds, one sleep
    fewer than attempts: at most nine sleeps and 511 seconds in all. *)
Theorem get_token_attempts_bounded (st : Env RSAPublicKey World) :
  exists k,
    (k <= 9)%nat /\
    n_calls (trace (token st)) = S k /\
    sleeps (trace (token st))
    = map (fun i => (1 * inject_Z (2 ^ Z.of_nat i))%Q) (seq 0 k) /\
    (total (sleeps (trace (token st))) <= 511)%Q.
Proof.
  destruct (get_token_run st) as (_ & -> & _).
  destruct (join_experiment_run st) as (_ & -> & _).
  destruct (retry_loop_shape join (Some "_join_experiment") sleep 10 1 9 0 st eq_refl)
    as (k & Hk & Hcalls & Hsleeps).
  exists k. unfold call_with_retries. change (range 10) with (map Z.of_nat (seq 0 10)).
  rewrite Hcalls, Hsleeps. repeat split; [exact Hk |].
  clear Hcalls Hsleeps.
  do 10 (destruct k as [| k]; [apply Qle_bool_iff; reflexivity |]). lia.
Qed.

(** X11: a call of [get_token] never changes the configuration of the
    authorizer (organization, model, user access token, local key); and
    when it raises, after however many attempts, the token that was held
    before the call is still the one held. *)
Theorem get_token_keeps_configuration_and_token_on_failure (st : Env RSAPublicKey World) :
  organization_name _ (fst (final (token st))) = organization_name _ (fst st) /\
  model_name _ (fst (final (token st))) = model_name _ (fst st) /\
  hf_user_access_token _ (fst (final (token st))) = hf_user_access_token _ (fst st) /\
  local_public_key _ (fst (final (token st))) = local_public_key _ (fst st) /\
  (forall e, returned (token st) = Raise e ->
     _local_access_token _ (fst (final (token st))) = _local_access_token _ (fst st)).
Proof.
  destruct (get_token_run st) as (-> & _ & Hraise).
  destruct (join_experiment_run st) as (-> & _ & Hraise').
  unfold call_with_retries.
  assert (Hconfig :
    organization_name _ (fst (final (retry_loop join (Some "_join_experiment") sleep 10 1 (range 10) st)))
      = organization_name _ (fst st) /\
    model_name _ (fst (final (retry_loop join (Some "_join_experiment") sleep 10 1 (range 10) st)))
      = model_name _ (fst st) /\
    hf_user_access_token _ (fst (final (retry_loop join (Some "_join_experiment") sleep 10 1 (range 10) st)))
      = hf_user_access_token _ (fst st) /\
    local_public_key _ (fst (final (retry_loop join (Some "_join_experiment") sleep 10 1 (range 10) st)))
      = local_public_key _ (fst st)).
  { apply (retry_loop_invariant join (Some "_join_experiment") sleep 10 1
             (fun s => organization_name _ (fst s) = organization_name _ (fst st) /\
                       model_name _ (fst s) = model_name _ (fst st) /\
                       hf_user_access_token _ (fst s) = hf_user_access_token _ (fst st) /\
                       local_public_key _ (fst s) = local_public_key _ (fst st))).
    - intros [a w] (H1 & H2 & H3 & H4).
      destruct (join_keeps a w) as (_ & K1 & K2 & K3 & K4 & _).
      cbn [fst] in *. rewrite K1, K2, K3, K4. now repeat split.
    - intros d s H. exact H.
    - now repeat split. }
  destruct Hconfig as (H1 & H2 & H3 & H4). repeat split; try assumption.
  intros e He. apply Hraise, Hraise' in He.
  apply (retry_loop_failure_invariant join (Some "_join_experiment") sleep 10 1
           (fun s => _local_access_token _ (fst s) = _local_access_token _ (fst st)))
    with (e := e).
  - intros [a w] e' Hs He'. destruct (join_keeps a w) as (_ & _ & _ & _ & _ & K).
    cbn [fst] in *. now rewrite (K e' He').
  - intros d s H. exact H.
  - reflexivity.
  - exact He.
Qed.

(** X12: [get_token] never unsets the authority key: an authorizer that
    holds a key before the call holds one after it, whether the call
    returns or raises; so [is_token_valid], which needs the key, returns a
    boolean after the call as it did before. *)
Theorem get_token_keeps_a_key (st : Env RSAPublicKey World) :
  _authority_public_key _ (fst st) <> None ->
  _authority_public_key _ (fst (final (token st))) <> None /\
  (forall now t, exists b, valid (fst (final (token st))) now t = Ok b).
Proof.
  intros Hkey.
  assert (Hafter : _authority_public_key _ (fst (final (token st))) <> None).
  { destruct (get_token_run st) as (-> & _ & _).
    destruct (join_experiment_run st) as (-> & _ & _).
    unfold call_with_retries.
    apply (retry_loop_invariant join (Some "_join_experiment") sleep 10 1
             (fun s => _authority_public_key _ (fst s) <> None)).
    - intros [a w] Hs. now apply (join_keeps a w).
    - intros d s H. exact H.
    - exact Hkey. }
  split; [exact Hafter |]. intros now t.
  destruct (_authority_public_key _ (fst (final (token st)))) as [key |] eqn:Hk;
    [| contradiction].
  exact (is_token_valid_returns _ verify fromisoformat _ key now t Hk).
Qed.

(** X13: when [get_token] returns, the authorizer holds an authority key
    and a token, whatever it held before: from then on [is_token_valid]
    returns a boolean for every token and never raises. *)
Theorem get_token_success_enables_validation (st : Env RSAPublicKey World)
    (v : option AccessToken) :
  returned (token st) = Ok v ->
  _authority_public_key _ (fst (final (token st))) <> None /\
  _local_access_token _ (fst (final (token st))) <> None /\
  (forall now t, exists b, valid (fst (final (token st))) now t = Ok b).
Proof.
  intros Hv.
  assert (Hjoin : exists a w u, fst (join (a, w)) = Ok u /\
                    snd (join (a, w)) = final (token st)).
  { destruct (get_token_run st) as (Hfinal & _ & _). rewrite Hfinal.
    unfold get_token in Hv. unfold join_experiment in *. cbn [returned final] in *.
    destruct (returned (call_with_retries join (Some "_join_experiment") sleep 10 1 st))
      as [r |] eqn:Hr; [| discriminate].
    destruct (call_with_retries_returns join (Some "_join_experiment") sleep 10%Z 1%Q st r
                ltac:(lia) Hr) as ([a w] & u & Hcall & _).
    exists a, w, u. rewrite Hcall. split; reflexivity. }
  destruct Hjoin as (a & w & u & Hok & Hstate).
  destruct (join_success a w u Hok) as [Hkey Htok]. rewrite Hstate in Hkey, Htok.
  repeat split; try assumption. intros now t.
  destruct (_authority_public_key _ (fst (final (token st)))) as [key |] eqn:Hk;
    [| contradiction].
  exact (is_token_valid_returns _ verify fromisoformat _ key now t Hk).
Qed.

End JoinMore.

(** ** Which failures a join raises *)

Section JoinFailures.
Variable RSAPublicKey : Type.
Variable from_bytes : bytes -> result RSAPublicKey.
Variable to_bytes : RSAPublicKey -> bytes.
Variable fromisoformat : str -> option datetime.
Variable datetime_str : datetime -> str.
Variable World : Type.
Variable requests_put : Request -> World -> result Response * World.
Variable sleep_world : Q -> World -> World.

Local Abbreviation Authorizer := (HuggingFaceAuthorizer RSAPublicKey).
Local Abbreviation body :=
  (join_body RSAPublicKey from_bytes to_bytes fromisoformat datetime_str World requests_put).
Local Abbreviation join :=
  (_join_experiment RSAPublicKey from_bytes to_bytes fromisoformat datetime_str World
     requests_put).
Local Abbreviation request := (join_request RSAPublicKey to_bytes).
Local Abbreviation read_token := (read_access_token fromisoformat datetime_str).
Local Abbreviation sleep := (time_sleep RSAPublicKey World sleep_world).
Local Abbreviation token :=
  (get_token RSAPublicKey from_bytes to_bytes fromisoformat datetime_str World
     requests_put sleep_world).

Lemma subscript_failure (obj : pyobj) (key : str) (e : exn) :
  subscript obj key = Raise e -> raised_by_reading e = true.
Proof.
  destruct obj; simpl; try (intros H; injection H as <-; reflexivity).
  destruct (dict_get items key); intros H; [discriminate |].
  injection H as <-. reflexivity.
Qed.

Lemma encode_failure (obj : pyobj) (e : exn) :
  encode obj = Raise e -> raised_by_reading e = true.
Proof.
  destruct obj; simpl; intros H; try discriminate; injection H as <-; reflexivity.
Qed.

Lemma as_string_field_failure (obj : pyobj) (e : exn) :
  as_string_field obj = Raise e -> raised_by_reading e = true.
Proof.
  destruct obj; simpl; intros H; try discriminate; injection H as <-; reflexivity.
Qed.

Lemma fromisoformat_obj_failure (obj : pyobj) (e : exn) :
  fromisoformat_obj fromisoformat obj = Raise e -> raised_by_reading e = true.
Proof.
  destruct obj; simpl; try (intros H; injection H as <-; reflexivity).
  destruct (fromisoformat s); intros H; [discriminate |].
  injection H as <-. reflexivity.
Qed.

(** Reading the token of an answer raises [KeyError], [TypeError],
    [AttributeError] or [ValueError] only. *)
Lemma read_access_token_failure (answer : pyobj) (e : exn) :
  read_token answer = Raise e -> raised_by_reading e = true.
Proof.
  unfold read_access_token.
  repeat match goal with
  | |- context [match ?x with Ok _ => _ | Raise _ => _ end] =>
      lazymatch x with
      | context [match _ with Ok _ => _ | Raise _ => _ end] => fail
      | _ => destruct x eqn:?
      end
  end; intros H; try discriminate; injection H as <-;
  eauto using subscript_failure, encode_failure, as_string_field_failure,
    fromisoformat_obj_failure.
Qed.

(** A failure of the [try] block is the [HTTPError] of an answer with an
    error status, or one of the failures of reading. *)
Lemma join_body_failure (a : Authorizer) (w : World) (e : exn) :
  library_outcome (fst (requests_put (request a) w)) ->
  (forall b e', from_bytes b = Raise e' -> e' = ValueError) ->
  fst (body (a, w)) = Raise e ->
  (exists response,
     fst (requests_put (request a) w) = Ok response /\
     (400 <= status_code response < 600)%Z /\
     e = HTTPError (status_code response)) \/
  raised_by_reading e = true.
Proof.
  intros Hlib Hkey.
  unfold join_body, bind, lift, get_self, update_self, put; cbn [fst snd].
  destruct (requests_put (request a) w) as [[response | e0] w1]; cbn [fst snd] in *.
  - destruct (raise_for_status response) as [[] | e1] eqn:Hstatus; cbn [fst snd].
    + destruct (json response) as [answer | e2] eqn:Hjson; cbn [fst snd].
      * destruct (subscript answer "auth_server_public_key") as [key_text | e3] eqn:H3;
          cbn [fst snd];
          [| intros H; injection H as <-; right; eauto using subscript_failure].
        destruct (encode key_text) as [key_bytes | e4] eqn:H4; cbn [fst snd];
          [| intros H; injection H as <-; right; eauto using encode_failure].
        destruct (from_bytes key_bytes) as [key | e5] eqn:H5; cbn [fst snd];
          [| intros H; injection H as <-; right; now rewrite (Hkey _ _ H5)].
        destruct (subscript answer "coordinator_ip") as [ip | e6] eqn:H6; cbn [fst snd];
          [| intros H; injection H as <-; right; eauto using subscript_failure].
        destruct (subscript answer "coordinator_port") as [port | e7] eqn:H7;
          cbn [fst snd];
          [| intros H; injection H as <-; right; eauto using subscript_failure].
        destruct (read_token answer) as [access_token | e8] eqn:H8; cbn [fst snd];
          [discriminate |].
        intros H; injection H as <-; right; eauto using read_access_token_failure.
      * intros H; injection H as <-. right. simpl in Hlib. now rewrite (Hlib _ Hjson).
    + intros H; injection H as <-. left. exists response.
      unfold raise_for_status in Hstatus.
      destruct (Z.leb_spec 400 (status_code response));
        destruct (Z.ltb_spec (status_code response) 600);
        simpl in Hstatus; try discriminate.
      injection Hstatus as <-. repeat split; lia.
  - intros H; injection H as <-. right. destruct Hlib as [k ->]. reflexivity.
Qed.

(** One join attempt raises a [NonRetriableError] only for an answer with
    status 401, and then it is [NotInAllowlistError]. *)
Lemma join_permanent_failure (a : Authorizer) (w : World) (e : exn) :
  library_outcome (fst (requests_put (request a) w)) ->
  (forall b e', from_bytes b = Raise e' -> e' = ValueError) ->
  fst (join (a, w)) = Raise e ->
  (e = NotInAllowlistError /\
   exists response,
     fst (requests_put (request a) w) = Ok response /\
     status_code response = 401%Z) \/
  transient e = true.
Proof.
  intros Hlib Hkey Hjoin.
  pose proof (join_body_failure a w) as Hbody. specialize (fun e => Hbody e Hlib Hkey).
  unfold _join_experiment in Hjoin.
  destruct (body (a, w)) as [[u | e0] st']; cbn [fst] in *; [discriminate |].
  destruct (Hbody e0 eq_refl) as [(response & Hput & Hrange & ->) | Hread].
  - destruct (Z.eqb_spec (status_code response) 401) as [H401 | Hother];
      cbn [fst] in Hjoin; injection Hjoin as <-.
    + left. split; [reflexivity |]. now exists response.
    + right. reflexivity.
  - right. destruct e0; try discriminate; cbn [fst] in Hjoin;
      injection Hjoin as <-; reflexivity.
Qed.

(** X14: the libraries failing as they do ([requests.put] with a transport
    failure, [response.json()] with [JSONDecodeError],
    [RSAPublicKey.from_bytes] with [ValueError]), the only
    [NonRetriableError] that [get_token] raises is [NotInAllowlistError], and
    it stands for an answer with status 401; [InvalidCredentialsError] is
    never raised, and every other failure it raises is a transient
    one. *)
Theorem get_token_permanent_failure_is_401 (st : Env RSAPublicKey World) (e : exn) :
  (forall req w, library_outcome (fst (requests_put req w))) ->
  (forall b e', from_bytes b = Raise e' -> e' = ValueError) ->
  returned (token st) = Raise e ->
  e <> InvalidCredentialsError /\
  ((e = NotInAllowlistError /\
    exists a w response,
      fst (requests_put (request a) w) = Ok response /\
      status_code response = 401%Z) \/
   transient e = true).
Proof.
  intros Hlib Hkey Hraise.
  assert (Hcall : exists a w, fst (join (a, w)) = Raise e).
  { unfold get_token, join_experiment in Hraise. cbn [returned] in Hraise.
    destruct (returned (call_with_retries join (Some "_join_experiment") sleep 10 1 st))
      as [r | e0] eqn:Hr; cbn [returned] in Hraise; [discriminate |].
    injection Hraise as ->.
    destruct (retry_loop_raises_failure_of_call join (Some "_join_experiment") sleep 10 1
                "_join_experiment" eq_refl (range 10) st e eq_refl Hr) as [[a w] Hs].
    now exists a, w. }
  destruct Hcall as (a & w & Hjoin).
  destruct (join_permanent_failure a w e (Hlib _ _) Hkey Hjoin)
    as [(-> & response & Hput & H401) | Ht].
  - split; [discriminate |]. left. split; [reflexivity |]. now exists a, w, response.
  - split; [intros ->; discriminate |]. now right.
Qed.

End JoinFailures.

(** ** The expiration time a join stores *)

Section StoredExpiration.
Variable RSAPublicKey : Type.
Variable from_bytes : bytes -> result RSAPublicKey.
Variable to_bytes : RSAPublicKey -> bytes.
Variable verify : RSAPublicKey -> bytes -> bytes -> bool.
Variable fromisoformat : str -> option datetime.
Variable datetime_str : datetime -> str.
Variable World : Type.
Variable requests_put : Request -> World -> result Response * World.

Local Abbreviation Authorizer := (HuggingFaceAuthorizer RSAPublicKey).
Local Abbreviation body :=
  (join_body RSAPublicKey from_bytes to_bytes fromisoformat datetime_str World requests_put).
Local Abbreviation join :=
  (_join_experiment RSAPublicKey from_bytes to_bytes fromisoformat datetime_str World
     requests_put).
Local Abbreviation read_token := (read_access_token fromisoformat datetime_str).
Local Abbreviation valid := (is_token_valid RSAPublicKey verify fromisoformat).
Local Abbreviation needs_refreshing := (does_token_need_refreshing RSAPublicKey fromisoformat).

(** The expiration time of a token read from an answer is [str] of a
    timestamp that the parser gave. *)
Lemma read_access_token_expiration (answer : pyobj) (t : AccessToken) :
  read_token answer = Ok t ->
  exists raw d, fromisoformat raw = Some d /\ expiration_time t = datetime_str d.
Proof.
  unfold read_access_token.
  repeat match goal with
  | |- context [match ?x with Ok _ => _ | Raise _ => _ end] =>
      lazymatch x with
      | context [match _ with Ok _ => _ | Raise _ => _ end] => fail
      | _ => destruct x eqn:?
      end
  end; intros H; try discriminate. injection H as <-.
  match goal with
  | Hp : fromisoformat_obj _ ?o = Ok ?d |- _ =>
      destruct o; simpl in Hp; try discriminate;
      match type of Hp with
      | context [fromisoformat ?raw] =>
          destruct (fromisoformat raw) eqn:Hraw; [| discriminate];
          injection Hp as ->; exists raw, d; split; [exact Hraw | reflexivity]
      end
  end.
Qed.

(** X15: a join attempt whose answer is well formed succeeds whether the
    expiration time of the answer carries a timezone or not, and stores a
    token whose expiration time is [str] of the timestamp parsed from that
    field of the answer: nothing in the join refuses a timezone. When the
    parser reads back what [str] wrote, the refresh check of the stored
    token returns a boolean if the timestamp has no timezone and raises
    [TypeError] if it has one, in which case [is_token_valid] gives
    [False]. *)
Theorem join_stores_normalised_expiration
    (a : Authorizer) (w w' : World) (response : Response)
    (answer token_dict ip port : pyobj) (key_text : str) (key : RSAPublicKey)
    (name peer raw sig : str) (d : datetime) :
  requests_put (join_request _ to_bytes a) w = (Ok response, w') ->
  raise_for_status response = Ok tt ->
  json response = Ok answer ->
  subscript answer "auth_server_public_key" = Ok (PyStr key_text) ->
  from_bytes key_text = Ok key ->
  subscript answer "coordinator_ip" = Ok ip ->
  subscript answer "coordinator_port" = Ok port ->
  subscript answer "hivemind_access" = Ok token_dict ->
  subscript token_dict "username" = Ok (PyStr name) ->
  subscript token_dict "peer_public_key" = Ok (PyStr peer) ->
  subscript token_dict "expiration_time" = Ok (PyStr raw) ->
  subscript token_dict "signature" = Ok (PyStr sig) ->
  fromisoformat raw = Some d ->
  fromisoformat (datetime_str d) = Some d ->
  fst (join (a, w)) = Ok tt /\
  _local_access_token _ (fst (snd (join (a, w))))
  = Some (mkAccessToken name peer (datetime_str d) sig) /\
  forall now,
    does_token_need_refreshing RSAPublicKey fromisoformat
      (fst (snd (join (a, w)))) now (mkAccessToken name peer (datetime_str d) sig)
    = match tzinfo d with
      | None => Ok (ticks d <? now + 60000000)%Z
      | Some _ => Raise TypeError
      end /\
    (tzinfo d <> None ->
     is_token_valid RSAPublicKey verify fromisoformat
       (fst (snd (join (a, w)))) now (mkAccessToken name peer (datetime_str d) sig)
     = Ok false).
Proof.
  intros Hput Hstatus Hjson Hkey_text Hkey Hip Hport Hdict Hname Hpeer Hraw Hsig
         Hparse Hback.
  assert (Hread : read_token answer = Ok (mkAccessToken name peer (datetime_str d) sig)).
  { unfold read_access_token.
    rewrite Hdict, Hname, Hpeer, Hraw, Hsig. cbn [as_string_field encode fromisoformat_obj].
    now rewrite Hparse. }
  assert (Hjoin : join (a, w)
                  = (Ok tt,
                     (set_local_access_token _ (mkAccessToken name peer (datetime_str d) sig)
                        (set_coordinator_port _ port
                           (set_coordinator_ip _ ip
                              (set_authority_public_key _ key a))), w'))).
  { unfold _join_experiment, join_body, bind, lift, get_self, update_self, put.
    cbn [fst snd]. rewrite Hput. cbn [fst snd].
    rewrite Hstatus, Hjson, Hkey_text. cbn [encode]. rewrite Hkey, Hip, Hport, Hread.
    reflexivity. }
  rewrite Hjoin. cbn [fst snd].
  split; [reflexivity |]. split; [reflexivity |].
  intros now. split.
  - rewrite does_token_need_refreshing_cases. cbn [expiration_time]. now rewrite Hback.
  - intros Htz. unfold is_token_valid.
    cbn [_authority_public_key set_local_access_token set_coordinator_port
         set_coordinator_ip set_authority_public_key expiration_time].
    destruct (verify key _ _); [| reflexivity].
    cbn [negb]. rewrite Hback.
    destruct (tzinfo d); [reflexivity | contradiction].
Qed.

End StoredExpiration.

(** ** [authorize_with_huggingface] *)

Section AuthorizeFacts.
Variable RSAPublicKey : Type.
Variable from_bytes : bytes -> result RSAPublicKey.
Variable to_bytes : RSAPublicKey -> bytes.
Variable verify : RSAPublicKey -> bytes -> bytes -> bool.
Variable fromisoformat : str -> option datetime.
Variable datetime_str : datetime -> str.
Variable World : Type.
Variable requests_put : Request -> World -> result Response * World.
Variable sleep_world : Q -> World -> World.
Variable process_key : RSAPublicKey.
Variable getenv : str -> option str.
Variable Console : Type.
Variable input : str -> Console -> option str * Console.
Variable getpass : str -> Console -> option str * Console.
Variable print : message -> Console -> Console.

Local Abbreviation Authorizer := (HuggingFaceAuthorizer RSAPublicKey).
Local Abbreviation join :=
  (_join_experiment RSAPublicKey from_bytes to_bytes fromisoformat datetime_str World
     requests_put).
Local Abbreviation sleep := (time_sleep RSAPublicKey World sleep_world).
Local Abbreviation join_with_retries :=
  (join_experiment RSAPublicKey from_bytes to_bytes fromisoformat datetime_str World
     requests_put sleep_world).
Local Abbreviation valid := (is_token_valid RSAPublicKey verify fromisoformat).
Local Abbreviation Session := (session RSAPublicKey World Console).
Local Abbreviation iteration :=
  (authorize_iteration RSAPublicKey from_bytes to_bytes fromisoformat datetime_str World
     requests_put sleep_world process_key getenv Console input getpass print).
Local Abbreviation loop :=
  (authorize_loop RSAPublicKey from_bytes to_bytes fromisoformat datetime_str World
     requests_put sleep_world process_key getenv Console input getpass print).
Local Abbreviation authorize :=
  (authorize_with_huggingface RSAPublicKey from_bytes to_bytes fromisoformat datetime_str
     World requests_put sleep_world process_key getenv Console input getpass print).
Local Abbreviation asked := (ask getenv Console input).

(** A successful [join_experiment] leaves a key and a token. *)
Lemma join_experiment_success (st : Env RSAPublicKey World) (u : unit) :
  returned (join_with_retries st) = Ok u ->
  _authority_public_key _ (fst (final (join_with_retries st))) <> None /\
  _local_access_token _ (fst (final (join_with_retries st))) <> None.
Proof.
  unfold join_experiment. cbn [returned final]. intros Hu.
  destruct (returned (call_with_retries join (Some "_join_experiment") sleep 10 1 st))
    as [r |] eqn:Hr; [| discriminate].
  destruct (call_with_retries_returns join (Some "_join_experiment") sleep 10%Z 1%Q st r
              ltac:(lia) Hr) as ([a w] & u' & Hcall & _).
  destruct (join_success _ from_bytes to_bytes fromisoformat datetime_str _
              requests_put a w u') as [Hkey Htok]; [now rewrite Hcall |].
  rewrite Hcall in Hkey, Htok. exact (conj Hkey Htok).
Qed.

(** [join_experiment] keeps the configuration of the authorizer. *)
Lemma join_experiment_configuration (st : Env RSAPublicKey World) :
  organization_name _ (fst (final (join_with_retries st))) = organization_name _ (fst st) /\
  model_name _ (fst (final (join_with_retries st))) = model_name _ (fst st) /\
  hf_user_access_token _ (fst (final (join_with_retries st)))
  = hf_user_access_token _ (fst st).
Proof.
  unfold join_experiment. cbn [final]. unfold call_with_retries.
  apply (retry_loop_invariant join (Some "_join_experiment") sleep 10 1
           (fun s => organization_name _ (fst s) = organization_name _ (fst st) /\
                     model_name _ (fst s) = model_name _ (fst st) /\
                     hf_user_access_token _ (fst s) = hf_user_access_token _ (fst st))).
  - intros [a w] (H1 & H2 & H3).
    destruct (join_keeps _ from_bytes to_bytes fromisoformat datetime_str _
                requests_put a w) as (_ & K1 & K2 & K3 & _).
    cbn [fst] in *. rewrite K1, K2, K3. now repeat split.
  - intros d s H. exact H.
  - now repeat split.
Qed.

(** The turn that returns, returns an authorizer that has joined. *)
Lemma authorize_iteration_returns (s : Session) (a : Authorizer) :
  fst (fst (iteration s)) = Return _ a ->
  authorizer _ _ _ (snd (fst (iteration s))) = Some a /\
  _authority_public_key _ a <> None /\
  _local_access_token _ a <> None.
Proof.
  unfold authorize_iteration.
  destruct (asked _ _ (console _ _ _ s)) as [[organization |] c1]; [| discriminate].
  destruct (asked _ _ c1) as [[model |] c2]; [| discriminate].
  destruct (match getenv "HF_USER_ACCESS_TOKEN" with
            | Some _ => _ | None => _ end) as [[[a0 |] |] c3];
    [| discriminate | discriminate].
  pose proof (join_experiment_success (a0, network _ _ _ s)) as Hjoin.
  destruct (returned (join_with_retries (a0, network _ _ _ s))) as [u | e].
  - destruct (Hjoin u eq_refl) as [Hkey Htok].
    destruct (_local_access_token _ (fst (final (join_with_retries (a0, network _ _ _ s)))))
      as [t |] eqn:Ht; [| discriminate].
    cbn [fst snd]. intros H. injection H as H. subst a.
    split; [reflexivity |]. split; [exact Hkey |].
    change (_local_access_token _
              (fst (final (join_with_retries (a0, network _ _ _ s)))) <> None).
    rewrite Ht. discriminate.
  - destruct e; discriminate.
Qed.

(** A turn does not fail with one of the two refusals. *)
Lemma authorize_iteration_refusal (s : Session) :
  fst (fst (iteration s)) <> Fail _ (Raised NotInAllowlistError) /\
  fst (fst (iteration s)) <> Fail _ (Raised InvalidCredentialsError).
Proof.
  unfold authorize_iteration.
  destruct (asked _ _ (console _ _ _ s)) as [[organization |] c1];
    [| split; discriminate].
  destruct (asked _ _ c1) as [[model |] c2]; [| split; discriminate].
  destruct (match getenv "HF_USER_ACCESS_TOKEN" with
            | Some _ => _ | None => _ end) as [[[a0 |] |] c3];
    [| split; discriminate | split; discriminate].
  destruct (returned (join_with_retries (a0, network _ _ _ s))) as [u | e].
  - destruct (_local_access_token _ _); split; discriminate.
  - destruct e; split; discriminate.
Qed.

(** X16: with [HF_USER_ACCESS_TOKEN] set in the environment the function
    never builds an authorizer (line 173 is inside the branch that asks
    for the token): it sends no request, joins nothing and returns nothing;
    it raises [UnboundLocalError] at [authorizer.join_experiment()] in its
    first turn, or [EOFError] before that if a name had to be typed and the
    input had ended. With the three variables set, it raises
    [UnboundLocalError] without reading or printing anything. *)
Theorem token_from_environment_is_unusable (fuel : nat) (w : World) (c : Console)
    (user_token : str) :
  getenv "HF_USER_ACCESS_TOKEN" = Some user_token ->
  (fst (fst (authorize (S fuel) w c)) = Fail _ UnboundLocalError \/
   fst (fst (authorize (S fuel) w c)) = Fail _ EOFError) /\
  network _ _ _ (snd (fst (authorize (S fuel) w c))) = w /\
  snd (authorize (S fuel) w c) = [] /\
  (forall organization model,
     getenv "HF_ORGANIZATION_NAME" = Some organization ->
     getenv "HF_MODEL_NAME" = Some model ->
     authorize (S fuel) w c = (Fail _ UnboundLocalError, mkSession _ _ _ None w c, [])).
Proof.
  intros Htoken. unfold authorize_with_huggingface.
  cbn [authorize_loop]. unfold authorize_iteration, ask. cbn [console authorizer network].
  rewrite Htoken.
  destruct (getenv "HF_ORGANIZATION_NAME") as [organization |];
    [| destruct (input "HuggingFace organization name: " c) as [[organization |] c1]];
    cbn [fst snd];
    try (destruct (getenv "HF_MODEL_NAME") as [model |];
         [| match goal with
            | |- context [input "HuggingFace model name: " ?c0] =>
                destruct (input "HuggingFace model name: " c0) as [[model |] c2]
            end]);
    cbn [fst snd network];
    (split; [first [now left | now right] |]);
    (split; [reflexivity |]); (split; [reflexivity |]);
    intros organization0 model0 Ho Hm;
    try discriminate Ho; try discriminate Hm; reflexivity.
Qed.

(** X17: whenever the function returns, however many turns it took, the
    authorizer it returns is the one bound to [authorizer], it holds an
    authority key and a token, and [is_token_valid] on it returns a
    boolean for every token. *)
Theorem authorize_returns_joined_authorizer (fuel : nat) : forall (s : Session) (a : Authorizer),
  fst (fst (authorize_loop RSAPublicKey from_bytes to_bytes fromisoformat datetime_str World
                 requests_put sleep_world process_key getenv Console input getpass print fuel s)) = Return _ a ->
  authorizer _ _ _ (snd (fst (loop fuel s))) = Some a /\
  _authority_public_key _ a <> None /\
  _local_access_token _ a <> None /\
  (forall now t, exists b, valid a now t = Ok b).
Proof.
  assert (Hvalid : forall a : Authorizer, _authority_public_key _ a <> None ->
                     forall now t, exists b, valid a now t = Ok b).
  { intros a Hkey now t. destruct (_authority_public_key _ a) as [key |] eqn:Hk;
      [| contradiction].
    exact (is_token_valid_returns _ verify fromisoformat a key now t Hk). }
  induction fuel as [| fuel IH]; intros s a.
  - discriminate.
  - cbn [authorize_loop].
    pose proof (authorize_iteration_returns s) as Hturn.
    destruct (iteration s) as [[[a0 | f |] s'] tr]; cbn [fst snd] in *.
    + intros H. injection H as <-.
      destruct (Hturn a0 eq_refl) as (Hs & Hkey & Htok).
      repeat split; try assumption. now apply Hvalid.
    + discriminate.
    + specialize (IH s' a).
      destruct (loop fuel s') as [[r s''] tr']; cbn [fst snd] in *. exact IH.
Qed.

(** X18: a refusal of the authority never ends the function: whatever the
    number of turns, it does not raise [NotInAllowlistError] nor
    [InvalidCredentialsError]; it prints a notice and starts the next
    turn. *)
Theorem authorize_never_raises_refusal (fuel : nat) : forall s : Session,
  fst (fst (authorize_loop RSAPublicKey from_bytes to_bytes fromisoformat datetime_str World
                 requests_put sleep_world process_key getenv Console input getpass print fuel s)) <> Fail _ (Raised NotInAllowlistError) /\
  fst (fst (loop fuel s)) <> Fail _ (Raised InvalidCredentialsError).
Proof.
  induction fuel as [| fuel IH]; intros s.
  - split; discriminate.
  - cbn [authorize_loop].
    pose proof (authorize_iteration_refusal s) as Hturn.
    destruct (iteration s) as [[[a0 | f |] s'] tr]; cbn [fst snd] in *.
    + split; discriminate.
    + exact Hturn.
    + specialize (IH s').
      destruct (loop fuel s') as [[r s''] tr']; cbn [fst snd] in *. exact IH.
Qed.

(** X19: when the token is not in the environment, the names and the token
    are obtained and the join succeeds, the function returns in its first
    turn: the authorizer returned is the one built from the organization,
    the model and the token given, after its join; its user name has been
    printed. *)
Theorem authorize_first_turn (fuel : nat) (w : World) (c c1 c2 c3 : Console)
    (organization model user_token : str) (u : unit) :
  getenv "HF_USER_ACCESS_TOKEN" = None ->
  asked "HF_ORGANIZATION_NAME" "HuggingFace organization name: " c
  = (Some organization, c1) ->
  asked "HF_MODEL_NAME" "HuggingFace model name: " c1 = (Some model, c2) ->
  getpass "HF user access token : " (print (TokenInstructions organization model) c2)
  = (Some user_token, c3) ->
  returned (join_with_retries
              (init _ process_key organization model user_token, w)) = Ok u ->
  exists a t,
    a = fst (final (join_with_retries
                      (init _ process_key organization model user_token, w))) /\
    _local_access_token _ a = Some t /\
    organization_name _ a = organization /\
    model_name _ a = model /\
    hf_user_access_token _ a = user_token /\
    authorize (S fuel) w c
    = (Return _ a,
       mkSession _ _ _ (Some a)
         (snd (final (join_with_retries
                        (init _ process_key organization model user_token, w))))
         (print (Contributing (username t)) c3),
       trace (join_with_retries
                (init _ process_key organization model user_token, w))).
Proof.
  intros Htoken Horg Hmodel Hpass Hjoin.
  set (st := (init _ process_key organization model user_token, w)) in *.
  destruct (join_experiment_success st u Hjoin) as [_ Htok].
  destruct (join_experiment_configuration st) as (K1 & K2 & K3).
  destruct (_local_access_token _ (fst (final (join_with_retries st)))) as [t |] eqn:Ht;
    [| contradiction].
  exists (fst (final (join_with_retries st))), t.
  split; [reflexivity |]. split; [exact Ht |].
  split; [exact K1 |]. split; [exact K2 |]. split; [exact K3 |].
  unfold authorize_with_huggingface. cbn [authorize_loop].
  unfold authorize_iteration. cbn [console authorizer network].
  rewrite Horg, Hmodel, Htoken, Hpass. fold st. rewrite Hjoin, Ht. reflexivity.
Qed.

End AuthorizeFacts.

(** ** The further properties at work on the small instance *)

Local Abbreviation demo_retries func := (call_with_retries func (Some "operation") demo_wait).
Local Abbreviation demo_valid := (is_token_valid string demo_verify demo_fromisoformat).
Local Abbreviation demo_refresh := (does_token_need_refreshing string demo_fromisoformat).
Local Abbreviation demo_token_of :=
  (get_token string demo_from_bytes demo_to_bytes demo_fromisoformat
     demo_datetime_str (list (result Response)) demo_put demo_sleep).
Local Abbreviation demo_wired_token :=
  (get_token string demo_from_bytes demo_to_bytes demo_fromisoformat
     demo_datetime_str (list (option (Z * option pyobj))) demo_wire demo_wire_sleep).
Local Abbreviation demo_one_join :=
  (_join_experiment string demo_from_bytes demo_to_bytes demo_fromisoformat
     demo_datetime_str (list (result Response)) demo_put).
Local Abbreviation demo_authorize env :=
  (authorize_with_huggingface string demo_from_bytes demo_to_bytes demo_fromisoformat
     demo_datetime_str (list (result Response)) demo_put demo_sleep "local" env
     demo_console demo_input demo_input demo_print).
Local Abbreviation demo_authorize_loop env :=
  (authorize_loop string demo_from_bytes demo_to_bytes demo_fromisoformat
     demo_datetime_str (list (result Response)) demo_put demo_sleep "local" env
     demo_console demo_input demo_input demo_print).

Lemma no_attempt_returns_none_witness :
  demo_retries demo_down 0 1 7%nat = mkOutcome (Ok None) 7%nat [].
Proof.
  apply (no_attempt_returns_none demo_down (Some "operation") demo_wait 0 1 7%nat). lia.
Defined.

Lemma interrupt_not_retried_witness :
  demo_retries demo_interrupted 3 1 0%nat = mkOutcome (Raise KeyboardInterrupt) 1%nat [Called].
Proof.
  apply (interrupt_not_retried demo_interrupted (Some "operation") demo_wait 3 1 0%nat
           KeyboardInterrupt); [lia | reflexivity | reflexivity].
Defined.


Example long_negative_delay_overflows :
  demo_retries demo_down 3 (inject_Z (- 10 ^ 10)) 0%nat
  = mkOutcome (Raise OverflowError) 1%nat
      [Called; Warned "operation" (RequestException Timeout)
                 (backoff (inject_Z (- 10 ^ 10)) 0)].
Proof. vm_compute. reflexivity. Qed.

Lemma is_token_valid_earlier_witness :
  demo_valid demo_joined (demo_now - 1) demo_token = Ok true.
Proof.
  apply (is_token_valid_earlier string demo_verify demo_fromisoformat demo_joined
           demo_now (demo_now - 1) demo_token); [vm_compute; discriminate | reflexivity].
Defined.

Lemma fresh_token_valid_for_a_minute_witness :
  demo_valid demo_joined (demo_now + 60000000) demo_token = Ok true.
Proof.
  apply (fresh_token_valid_for_a_minute string demo_verify demo_fromisoformat
           demo_joined "authority" demo_now (demo_now + 60000000) demo_token);
    [reflexivity | reflexivity | reflexivity | vm_compute; discriminate].
Defined.

Lemma valid_token_refresh_check_returns_witness :
  exists b, demo_refresh demo_joined (demo_expiry + 1) demo_token = Ok b.
Proof.
  exact (proj1 (valid_token_refresh_check_returns string demo_verify demo_fromisoformat
                  demo_joined demo_now demo_token eq_refl) (demo_expiry + 1)%Z).
Defined.

Lemma payload_binds_public_key_witness :
  public_key demo_token
  = public_key (mkAccessToken "alice" "peer-key" "2030-01-01 00:00:00" "forged").
Proof.
  apply (payload_binds_public_key demo_token
           (mkAccessToken "alice" "peer-key" "2030-01-01 00:00:00" "forged"));
    reflexivity.
Defined.

Lemma get_token_keeps_a_key_witness :
  returned (demo_token_of (demo_joined, [Ok demo_truncated]))
  = Raise (RequestException ConnectionError) /\
  _authority_public_key string
    (fst (final (demo_token_of (demo_joined, [Ok demo_truncated])))) <> None.
Proof.
  split; [reflexivity |].
  apply (get_token_keeps_a_key string demo_from_bytes demo_to_bytes demo_verify
           demo_fromisoformat demo_datetime_str (list (result Response)) demo_put
           demo_sleep (demo_joined, [Ok demo_truncated])).
  discriminate.
Defined.

Lemma get_token_success_enables_validation_witness :
  exists b,
    demo_valid (fst (final (demo_token_of (demo_fresh, [Ok demo_granted]))))
      demo_now demo_unparsable_token = Ok b.
Proof.
  destruct (get_token_success_enables_validation string demo_from_bytes demo_to_bytes
              demo_verify demo_fromisoformat demo_datetime_str (list (result Response))
              demo_put demo_sleep (demo_fresh, [Ok demo_granted]) (Some demo_token)
              eq_refl) as (_ & _ & Hvalid).
  exact (Hvalid demo_now demo_unparsable_token).
Defined.

Lemma get_token_permanent_failure_is_401_witness :
  returned (demo_wired_token (demo_fresh, [Some (401%Z, None)])) = Raise NotInAllowlistError /\
  NotInAllowlistError <> InvalidCredentialsError.
Proof.
  split; [reflexivity |].
  apply (get_token_permanent_failure_is_401 string demo_from_bytes demo_to_bytes
           demo_fromisoformat demo_datetime_str (list (option (Z * option pyobj)))
           demo_wire demo_wire_sleep (demo_fresh, [Some (401%Z, None)])
           NotInAllowlistError).
  - intros req w. destruct w as [| [[status [answer |]] |] w']; simpl.
    + now exists ConnectionError.
    + discriminate.
    + intros e H. now injection H as <-.
    + now exists ConnectionError.
  - intros b e. unfold demo_from_bytes.
    destruct (String.eqb b ""); intros H; [now injection H as <- | discriminate].
  - reflexivity.
Defined.

Lemma join_stores_normalised_expiration_witness :
  fst (demo_one_join (demo_fresh, [Ok demo_granted_aware])) = Ok tt /\
  _local_access_token string (fst (snd (demo_one_join (demo_fresh, [Ok demo_granted_aware]))))
  = Some (mkAccessToken "alice" "peer-key" "2030-01-01 00:00:00+00:00"
            "authority:alice b'peer-key' 2030-01-01 00:00:00+00:00") /\
  demo_refresh (fst (snd (demo_one_join (demo_fresh, [Ok demo_granted_aware])))) demo_now
    (mkAccessToken "alice" "peer-key" "2030-01-01 00:00:00+00:00"
       "authority:alice b'peer-key' 2030-01-01 00:00:00+00:00")
  = Raise TypeError /\
  is_token_valid string demo_verify demo_fromisoformat
    (fst (snd (demo_one_join (demo_fresh, [Ok demo_granted_aware])))) demo_now
    (mkAccessToken "alice" "peer-key" "2030-01-01 00:00:00+00:00"
       "authority:alice b'peer-key' 2030-01-01 00:00:00+00:00")
  = Ok false.
Proof.
  destruct (join_stores_normalised_expiration string demo_from_bytes demo_to_bytes
              demo_verify demo_fromisoformat demo_datetime_str (list (result Response))
              demo_put demo_fresh [Ok demo_granted_aware] [] demo_granted_aware
              (PyDict
                 [("auth_server_public_key", PyStr "authority");
                  ("coordinator_ip", PyStr "10.0.0.1");
                  ("coordinator_port", PyInt 31337);
                  ("hivemind_access", PyDict
                     [("username", PyStr "alice");
                      ("peer_public_key", PyStr "peer-key");
                      ("expiration_time", PyStr "2030-01-01 00:00:00+00:00");
                      ("signature",
                       PyStr "authority:alice b'peer-key' 2030-01-01 00:00:00+00:00")])])
              (PyDict
                 [("username", PyStr "alice");
                  ("peer_public_key", PyStr "peer-key");
                  ("expiration_time", PyStr "2030-01-01 00:00:00+00:00");
                  ("signature",
                   PyStr "authority:alice b'peer-key' 2030-01-01 00:00:00+00:00")])
              (PyStr "10.0.0.1") (PyInt 31337) "authority" "authority"
              "alice" "peer-key" "2030-01-01 00:00:00+00:00"
              "authority:alice b'peer-key' 2030-01-01 00:00:00+00:00"
              (mkDatetime demo_expiry (Some 0%Z))
              eq_refl eq_refl eq_refl eq_refl eq_refl eq_refl eq_refl eq_refl eq_refl
              eq_refl eq_refl eq_refl eq_refl eq_refl)
    as (Hok & Htok & Hchecks).
  split; [exact Hok |]. split; [exact Htok |].
  destruct (Hchecks demo_now) as [Hrefresh Hvalid].
  split; [exact Hrefresh | apply Hvalid; discriminate].
Defined.

Example join_stores_naive_expiration :
  fst (demo_one_join (demo_fresh, [Ok demo_granted])) = Ok tt /\
  _local_access_token string (fst (snd (demo_one_join (demo_fresh, [Ok demo_granted]))))
  = Some demo_token /\
  demo_refresh (fst (snd (demo_one_join (demo_fresh, [Ok demo_granted])))) demo_now demo_token
  = Ok false.
Proof. repeat split. Qed.

Lemma token_from_environment_is_unusable_witness :
  demo_authorize demo_env_full 5%nat [Ok demo_granted] (["typed"], [])
  = (Fail string UnboundLocalError,
     mkSession string (list (result Response)) demo_console None [Ok demo_granted]
       (["typed"], []),
     []).
Proof.
  destruct (token_from_environment_is_unusable string demo_from_bytes demo_to_bytes
              demo_fromisoformat demo_datetime_str (list (result Response)) demo_put
              demo_sleep "local" demo_env_full demo_console demo_input demo_input
              demo_print 4%nat [Ok demo_granted] (["typed"], []) "hf_token" eq_refl)
    as (_ & _ & _ & Hall).
  exact (Hall "org" "model" eq_refl eq_refl).
Defined.

Lemma authorize_returns_joined_authorizer_witness :
  _authority_public_key string
    (mkAuthorizer string "org2" "model2" "tok2" "local" (Some demo_token)
       (Some "authority") (PyStr "10.0.0.1") (PyInt 31337)) <> None.
Proof.
  destruct (authorize_returns_joined_authorizer string demo_from_bytes demo_to_bytes
              demo_verify demo_fromisoformat demo_datetime_str (list (result Response))
              demo_put demo_sleep "local" demo_env_empty demo_console demo_input
              demo_input demo_print 3%nat
              (mkSession string (list (result Response)) demo_console None
                 [Ok (mkResponse 401 (Raise JSONDecodeError)); Ok demo_granted]
                 (["org"; "model"; "tok"; "org2"; "model2"; "tok2"], []))
              (mkAuthorizer string "org2" "model2" "tok2" "local" (Some demo_token)
                 (Some "authority") (PyStr "10.0.0.1") (PyInt 31337))
              eq_refl) as (_ & Hkey & _).
  exact Hkey.
Defined.

Lemma authorize_first_turn_witness :
  fst (fst (demo_authorize demo_env_empty 1%nat [Ok demo_granted]
              (["org"; "model"; "tok"], [])))
  = Return string
      (mkAuthorizer string "org" "model" "tok" "local" (Some demo_token)
         (Some "authority") (PyStr "10.0.0.1") (PyInt 31337)).
Proof.
  destruct (authorize_first_turn string demo_from_bytes demo_to_bytes
              demo_fromisoformat demo_datetime_str (list (result Response)) demo_put
              demo_sleep "local" demo_env_empty demo_console demo_input demo_input
              demo_print 0%nat [Ok demo_granted]
              (["org"; "model"; "tok"], []) (["model"; "tok"], []) (["tok"], [])
              ([], [TokenInstructions "org" "model"])
              "org" "model" "tok" tt eq_refl eq_refl eq_refl eq_refl eq_refl)
    as (a & t & Ha & _ & _ & _ & _ & Hrun).
  rewrite Hrun, Ha. reflexivity.
Defined.
